(** * game_tracker: the four HTTP resolvers of the Firebase functions

    A shallow embedding of [fetchSuggestions], [fetchSteamGames],
    [fetchPSGames] and [fetchXboxGames].  Each handler is an [async]
    function that awaits outbound calls one after the other, writes one
    response on [res] and wraps its work in a single [try]/[catch].

    - JSON documents are the inductive type [json]; a JavaScript value of the
      handlers is a [value], i.e. an optional [json] whose [None] is
      [undefined].  JSON numbers are integers ([Z]): the handlers compare
      them and pass them on, they never compute with them.  A string is
      the UTF-8 encoding of its text.
    - The outside world is an [Upstream]: it answers the [n]-th outbound call
      of a request, or rejects it.
    - A handler is a computation in the monad [M]: it threads the [State]
      (the outbound calls made so far, what [logger.error] received, the
      response written on [res]) and completes normally, by a thrown
      exception, by [return], or by running out of fuel in the one [while]
      loop of the program. *)

From Stdlib Require Import ZArith List String Ascii Bool Lia DecimalString.
Import ListNotations.

Local Open Scope string_scope.
Local Open Scope Z_scope.

(** ** JSON documents and JavaScript values *)

#[warnings="-register-all"]
Inductive json : Type :=
| JNull
| JBool (b : bool)
| JNum (n : Z)
| JStr (s : string)
| JArr (items : list json)
| JObj (fields : list (string * json)).

(** [None] is [undefined]. *)
Definition value : Type := option json.

Definition undefined : value := None.

Inductive Error : Type :=
| TypeError      (* property read on undefined or null, call of a non-function *)
| SyntaxError    (* response.json() on a body that is not JSON *)
| NetworkError.  (* a rejected outbound call *)

(** Own property of an object; [JSON.parse] never yields a key twice. *)
Fixpoint field (k : string) (fs : list (string * json)) : value :=
  match fs with
  | [] => None
  | (k', v) :: fs' => if String.eqb k k' then Some v else field k fs'
  end.

(** [v.k] for the property names the handlers read; none of them is a
    built-in property of arrays, strings, numbers or booleans. *)
Definition get (v : value) (k : string) : Error + value :=
  match v with
  | None | Some JNull => inl TypeError
  | Some (JObj fs) => inr (field k fs)
  | Some _ => inr undefined
  end.

(** [v[0]]. *)
Definition first (v : value) : Error + value :=
  match v with
  | None | Some JNull => inl TypeError
  | Some (JArr items) => inr (nth_error items 0)
  | Some (JObj fs) => inr (field "0" fs)
  | Some (JStr (String c _)) => inr (Some (JStr (String c EmptyString)))
  | Some _ => inr undefined
  end.

(** [v.length]. *)
Definition get_length (v : value) : Error + value :=
  match v with
  | None | Some JNull => inl TypeError
  | Some (JArr items) => inr (Some (JNum (Z.of_nat (List.length items))))
  | Some (JStr s) => inr (Some (JNum (Z.of_nat (String.length s))))
  | Some (JObj fs) => inr (field "length" fs)
  | Some _ => inr undefined
  end.

(** ToBoolean. *)
Definition truthy (v : value) : bool :=
  match v with
  | None | Some JNull => false
  | Some (JBool b) => b
  | Some (JNum n) => negb (n =? 0)
  | Some (JStr s) => negb (String.eqb s "")
  | Some (JArr _) | Some (JObj _) => true
  end.

(** [v === n] and [v === s] against a number or a string literal. *)
Definition is_number (v : value) (n : Z) : bool :=
  match v with
  | Some (JNum m) => m =? n
  | _ => false
  end.

Definition is_string (v : value) (s : string) : bool :=
  match v with
  | Some (JStr t) => String.eqb t s
  | _ => false
  end.

(** [v ?? d]. *)
Definition nullish_or (v d : value) : value :=
  match v with
  | None | Some JNull => d
  | Some _ => v
  end.

(** [v || d]. *)
Definition falsy_or (v d : value) : value :=
  if truthy v then v else d.

Definition join (sep : string) (parts : list string) : string :=
  match parts with
  | [] => ""
  | p :: ps => fold_left (fun acc q => acc ++ sep ++ q) ps p
  end.

(** ToString, as template literals and [String(v)] apply it.  Inside an
    array [null] prints as the empty string.  Numbers print in decimal; the
    exponent notation of very large numbers is not modelled. *)
Fixpoint to_string_json (j : json) : string :=
  match j with
  | JNull => "null"
  | JBool true => "true"
  | JBool false => "false"
  | JNum n => NilZero.string_of_int (Z.to_int n)
  | JStr s => s
  | JArr items =>
      join "," (map (fun i => match i with
                              | JNull => ""
                              | _ => to_string_json i
                              end) items)
  | JObj _ => "[object Object]"
  end.

Definition to_string (v : value) : string :=
  match v with
  | None => "undefined"
  | Some j => to_string_json j
  end.

(** White space of [String.prototype.trim]: the WhiteSpace and
    LineTerminator code points of ECMAScript.  A string is the UTF-8
    encoding of its text, so the one-byte code points U+0009 to U+000D and
    U+0020 are followed by the two-byte U+00A0 and the three-byte U+1680,
    U+2000 to U+200A, U+2028, U+2029, U+202F, U+205F, U+3000 and U+FEFF. *)
Definition is_space (c : ascii) : bool :=
  let n := nat_of_ascii c in
  (Nat.eqb n 32 || (Nat.leb 9 n && Nat.leb n 13))%bool.

Definition is_space2 (c1 c2 : ascii) : bool :=
  (Nat.eqb (nat_of_ascii c1) 194 && Nat.eqb (nat_of_ascii c2) 160)%bool.

Definition is_space3 (c1 c2 c3 : ascii) : bool :=
  let n1 := nat_of_ascii c1 in
  let n2 := nat_of_ascii c2 in
  let n3 := nat_of_ascii c3 in
  ((Nat.eqb n1 225 && Nat.eqb n2 154 && Nat.eqb n3 128)
   || (Nat.eqb n1 226 && Nat.eqb n2 128
       && ((Nat.leb 128 n3 && Nat.leb n3 138)
           || Nat.eqb n3 168 || Nat.eqb n3 169 || Nat.eqb n3 175))
   || (Nat.eqb n1 226 && Nat.eqb n2 129 && Nat.eqb n3 159)
   || (Nat.eqb n1 227 && Nat.eqb n2 128 && Nat.eqb n3 128)
   || (Nat.eqb n1 239 && Nat.eqb n2 187 && Nat.eqb n3 191))%bool.

Fixpoint trim_start (s : string) : string :=
  match s with
  | String c1 s1 =>
      if is_space c1 then trim_start s1
      else
        match s1 with
        | String c2 s2 =>
            if is_space2 c1 c2 then trim_start s2
            else
              match s2 with
              | String c3 s3 =>
                  if is_space3 c1 c2 c3 then trim_start s3 else s
              | EmptyString => s
              end
        | EmptyString => s
        end
  | EmptyString => s
  end.

(** The same from the end, on the bytes in reverse order: no encoding of a
    white space code point ends another character. *)
Fixpoint strip_reversed (bytes : list ascii) : list ascii :=
  match bytes with
  | c1 :: r1 =>
      if is_space c1 then strip_reversed r1
      else
        match r1 with
        | c2 :: r2 =>
            if is_space2 c2 c1 then strip_reversed r2
            else
              match r2 with
              | c3 :: r3 =>
                  if is_space3 c3 c2 c1 then strip_reversed r3 else bytes
              | [] => bytes
              end
        | [] => bytes
        end
  | [] => []
  end.

Definition trim_end (s : string) : string :=
  string_of_list_ascii
    (rev (strip_reversed (rev (list_ascii_of_string s)))).

Definition trim (s : string) : string := trim_end (trim_start s).

(** The no-break space U+00A0. *)
Definition nbsp : string :=
  String (ascii_of_nat 194) (String (ascii_of_nat 160) EmptyString).

(** An object literal as [JSON.stringify] prints it: a property whose value
    is [undefined] is left out.  The handlers build object literals only to
    hand them to [res.json]. *)
Fixpoint defined_props (props : list (string * value))
  : list (string * json) :=
  match props with
  | [] => []
  | (k, None) :: props' => defined_props props'
  | (k, Some v) :: props' => (k, v) :: defined_props props'
  end.

Definition object (props : list (string * value)) : json :=
  JObj (defined_props props).

(** ** The outside world *)

(** A [fetch] response: [response.status] and the body, [None] when it is
    not JSON.  [response.ok] is read off the status. *)
Record HttpReply : Type := mkReply {
  reply_status : Z;
  reply_body : option json
}.

Definition ok (r : HttpReply) : bool :=
  ((200 <=? reply_status r) && (reply_status r <=? 299))%bool.

(** The calls into the psn-api package. *)
Inductive PsnCall : Type :=
| ExchangeNpssoForAccessCode (npsso : string)
| ExchangeAccessCodeForAuthTokens (accessCode : value)
| MakeUniversalSearch (authorization searchTerm : value) (domain : string)
| GetUserPlayedGames (authorization accountId : value) (limit : Z)
                     (offset : value).

(** An outbound call: a [fetch] of a URL with request headers, or a psn-api
    call. *)
Inductive Call : Type :=
| Fetch (url : string) (headers : list (string * string))
| Psn (c : PsnCall).

Inductive promise (A : Type) : Type :=
| Rejected
| Resolved (a : A).
Arguments Rejected {A}.
Arguments Resolved {A} a.

(** The upstream services: the answer to the outbound call that is made
    when [n] calls have been made before it in this request. *)
Record Upstream : Type := mkUpstream {
  http : nat -> string -> list (string * string) -> promise HttpReply;
  psn : nat -> PsnCall -> promise value
}.

(** ** Requests and responses *)

(** [req.query]: a parameter is a string, an array or an object. *)
Record Request : Type := mkRequest {
  query : list (string * json)
}.

Inductive Body : Type :=
| Text (s : string)      (* res.send(s) *)
| Json (v : value).      (* res.json(v) *)

Record Response : Type := mkResponse {
  status : Z;
  body : Body
}.

Record State : Type := mkState {
  calls : list Call;                   (* outbound calls, oldest first *)
  logged : list (string * Error);      (* logger.error(message, error) *)
  sent : option Response               (* what was written on res *)
}.

Definition start : State := mkState [] [] None.

(** ** The monad of the handlers *)

Inductive completion (A : Type) : Type :=
| Normal (a : A)
| Throw (e : Error)
| Return       (* the handler returned *)
| Diverge.     (* the loop is still running when the fuel is used up *)
Arguments Normal {A} a.
Arguments Throw {A} e.
Arguments Return {A}.
Arguments Diverge {A}.

Definition M (A : Type) : Type := Upstream -> State -> completion A * State.

Definition ret {A} (a : A) : M A := fun _ s => (Normal a, s).

Definition bind {A B} (m : M A) (k : A -> M B) : M B :=
  fun up s =>
    match m up s with
    | (Normal a, s') => k a up s'
    | (Throw e, s') => (Throw e, s')
    | (Return, s') => (Return, s')
    | (Diverge, s') => (Diverge, s')
    end.

Declare Scope js_scope.
Delimit Scope js_scope with js.
Notation "x <- m ;; k" := (bind m (fun x => k))
  (at level 61, m at next level, right associativity) : js_scope.
Notation "m ;; k" := (bind m (fun _ => k))
  (at level 61, right associativity) : js_scope.
Local Open Scope js_scope.

Definition throw {A} (e : Error) : M A := fun _ s => (Throw e, s).
Definition return_ {A} : M A := fun _ s => (Return, s).
Definition diverge {A} : M A := fun _ s => (Diverge, s).

Definition lift {A} (r : Error + A) : M A :=
  match r with
  | inl e => throw e
  | inr a => ret a
  end.

(** [try { body } catch (error) { handler }]. *)
Definition try_catch {A} (body : M A) (handler : Error -> M A) : M A :=
  fun up s =>
    match body up s with
    | (Throw e, s') => handler e up s'
    | other => other
    end.

(** [await fetch(url, {headers})]. *)
Definition fetch (url : string) (headers : list (string * string))
  : M HttpReply :=
  fun up s =>
    let s' := mkState (calls s ++ [Fetch url headers]) (logged s) (sent s) in
    match http up (List.length (calls s)) url headers with
    | Rejected => (Throw NetworkError, s')
    | Resolved r => (Normal r, s')
    end.

(** [await response.json()]. *)
Definition json_of (r : HttpReply) : M value :=
  match reply_body r with
  | None => throw SyntaxError
  | Some j => ret (Some j)
  end.

(** [await] of a psn-api call. *)
Definition psn_call (c : PsnCall) : M value :=
  fun up s =>
    let s' := mkState (calls s ++ [Psn c]) (logged s) (sent s) in
    match psn up (List.length (calls s)) c with
    | Rejected => (Throw NetworkError, s')
    | Resolved v => (Normal v, s')
    end.

(** [res.status(code).send(text)] and [res.status(code).json(v)]. *)
Definition respond (code : Z) (b : Body) : M unit :=
  fun _ s => (Normal tt, mkState (calls s) (logged s)
                                 (Some (mkResponse code b))).

Definition logger_error (message : string) (e : Error) : M unit :=
  fun _ s => (Normal tt, mkState (calls s) (logged s ++ [(message, e)])
                                 (sent s)).

(** [array.map(f)]: a [TypeError] on anything that is not an array. *)
Fixpoint map_items (f : json -> M json) (items : list json) : M (list json) :=
  match items with
  | [] => ret []
  | i :: rest =>
      y <- f i ;;
      ys <- map_items f rest ;;
      ret (y :: ys)
  end.

Definition array_map (f : json -> M json) (v : value) : M (list json) :=
  match v with
  | Some (JArr items) => map_items f items
  | _ => throw TypeError
  end.

(** Run a handler on a fresh request. *)
Definition handle (h : M unit) (up : Upstream) : completion unit * State :=
  h up start.

(** ** The URLs of the template literals *)

Definition rawg_search_url (key searchQuery : string) : string :=
  "https://api.rawg.io/api/games?key=" ++ key ++ "&search=" ++ searchQuery.

Definition steam_vanity_url (key vanityName : string) : string :=
  "https://api.steampowered.com/ISteamUser/ResolveVanityURL/v1/?key="
  ++ key ++ "&vanityurl=" ++ vanityName.

Definition steam_games_url (key steamID : string) : string :=
  "https://api.steampowered.com/IPlayerService/GetOwnedGames/v1/?key="
  ++ key ++ "&steamid=" ++ steamID ++ "&include_appinfo=true&format=json".

Definition xbox_search_url (username : string) : string :=
  "https://xbl.io/api/v2/search/" ++ username.

Definition xbox_history_url (numericId : string) : string :=
  "https://xbl.io/api/v2/player/titleHistory/" ++ numericId.

Arguments rawg_search_url : simpl never.
Arguments steam_vanity_url : simpl never.
Arguments steam_games_url : simpl never.
Arguments xbox_search_url : simpl never.
Arguments xbox_history_url : simpl never.
Arguments to_string : simpl never.
Arguments get : simpl never.
Arguments first : simpl never.

(** ** fetchSuggestions *)

Definition fetchSuggestions (RAWG_API : string) (req : Request) : M unit :=
  let searchQuery := field "query" (query req) in
  if negb (truthy searchQuery) then
    respond 400 (Text "Missing search query") ;;
    return_
  else
    try_catch
      (let rawgApiKey := RAWG_API in
       response <- fetch
         (rawg_search_url rawgApiKey (to_string searchQuery)) [] ;;
       if negb (ok response) then
         respond (reply_status response)
                 (Text "Failed to fetch game suggestions") ;;
         return_
       else
         data <- json_of response ;;
         results <- lift (get data "results") ;;
         respond 200 (Json results))
      (fun error =>
         logger_error "API fetch failed:" error ;;
         respond 500 (Text "Failed to fetch game suggestions")).

(** ** fetchSteamGames *)

(** The arrow function of [gamesData.response.games.map]. *)
Definition simplify (game : json) : M json :=
  appid <- lift (get (Some game) "appid") ;;
  name <- lift (get (Some game) "name") ;;
  ret (object [("appid", appid); ("name", name)]).

Definition fetchSteamGames (STEAM_API : string) (req : Request) : M unit :=
  let steamVanityName := field "vanityurl" (query req) in
  if negb (truthy steamVanityName) then
    respond 400 (Text "Missing Steam vanity URL") ;;
    return_
  else
    try_catch
      (let steamApiKey := STEAM_API in
       response <- fetch
         (steam_vanity_url steamApiKey (to_string steamVanityName)) [] ;;
       if negb (ok response) then
         respond (reply_status response) (Text "Failed to fetch Steam user") ;;
         return_
       else
         data <- json_of response ;;
         data_response <- lift (get data "response") ;;
         success <- lift (get data_response "success") ;;
         if negb (is_number success 1) then
           respond 404 (Text "Steam user not found") ;;
           return_
         else
           steamID <- lift (get data_response "steamid") ;;
           gamesResponse <- fetch
             (steam_games_url steamApiKey (to_string steamID)) [] ;;
           if negb (ok gamesResponse) then
             respond (reply_status gamesResponse)
                     (Text "Failed to fetch Steam games") ;;
             return_
           else
             gamesData <- json_of gamesResponse ;;
             gamesData_response <- lift (get gamesData "response") ;;
             games <- lift (get gamesData_response "games") ;;
             simplifiedGames <- array_map simplify games ;;
             respond 200
               (Json (Some (object [("games", Some (JArr simplifiedGames))]))))
      (fun error =>
         logger_error "API fetch failed:" error ;;
         respond 500 (Text "Failed to fetch Steam games")).

(** The handler of the same name in functions/src/index.ts: it answers with
    the [response] member of the owned-games document as it came. *)
Module IndexTs.

Definition fetchSuggestions (RAWG_API : string) (req : Request) : M unit :=
  let searchQuery := field "query" (query req) in
  if negb (truthy searchQuery) then
    respond 400 (Text "Missing search query") ;;
    return_
  else
    try_catch
      (let rawgApiKey := RAWG_API in
       response <- fetch
         (rawg_search_url rawgApiKey (to_string searchQuery)) [] ;;
       if negb (ok response) then
         respond (reply_status response)
                 (Text "Failed to fetch game suggestions") ;;
         return_
       else
         data <- json_of response ;;
         results <- lift (get data "results") ;;
         respond 200 (Json results))
      (fun error =>
         logger_error "API fetch failed:" error ;;
         respond 500 (Text "Failed to fetch game suggestions")).

Definition fetchSteamGames (STEAM_API : string) (req : Request) : M unit :=
  let steamVanityName := field "vanityurl" (query req) in
  if negb (truthy steamVanityName) then
    respond 400 (Text "Missing Steam vanity URL") ;;
    return_
  else
    try_catch
      (let steamApiKey := STEAM_API in
       response <- fetch
         (steam_vanity_url steamApiKey (to_string steamVanityName)) [] ;;
       if negb (ok response) then
         respond (reply_status response) (Text "Failed to fetch Steam user") ;;
         return_
       else
         data <- json_of response ;;
         data_response <- lift (get data "response") ;;
         success <- lift (get data_response "success") ;;
         if negb (is_number success 1) then
           respond 404 (Text "Steam user not found") ;;
           return_
         else
           steamID <- lift (get data_response "steamid") ;;
           gamesResponse <- fetch
             (steam_games_url steamApiKey (to_string steamID)) [] ;;
           if negb (ok gamesResponse) then
             respond (reply_status gamesResponse)
                     (Text "Failed to fetch Steam games") ;;
             return_
           else
             gamesData <- json_of gamesResponse ;;
             gamesData_response <- lift (get gamesData "response") ;;
             respond 200 (Json gamesData_response))
      (fun error =>
         logger_error "API fetch failed:" error ;;
         respond 500 (Text "Failed to fetch Steam games")).

End IndexTs.

(** ** fetchPSGames *)

(** The arrow function of [playedGames.titles.forEach]: it pushes the
    normalized title on [psGames] when the category is one of the two. *)
Definition keep_title (psGames : list json) (game : json) : M (list json) :=
  category <- lift (get (Some game) "category") ;;
  if (is_string category "ps4_game"
      || is_string category "ps5_native_game")%bool then
    titleId <- lift (get (Some game) "titleId") ;;
    name <- lift (get (Some game) "name") ;;
    imageUrl <- lift (get (Some game) "imageUrl") ;;
    ret (psGames ++ [object [("appid", titleId); ("name", name);
                             ("logo", imageUrl)]])%list
  else
    ret psGames.

Fixpoint each_title (psGames : list json) (items : list json)
  : M (list json) :=
  match items with
  | [] => ret psGames
  | game :: rest =>
      psGames' <- keep_title psGames game ;;
      each_title psGames' rest
  end.

(** [titles.forEach(...)]: a [TypeError] on anything that is not an array. *)
Definition forEach_title (titles : value) (psGames : list json)
  : M (list json) :=
  match titles with
  | Some (JArr items) => each_title psGames items
  | _ => throw TypeError
  end.

(** The loop [while (hasNextPage) { ... }], entered with [hasNextPage] true;
    [fuel] bounds the number of iterations. *)
Fixpoint while_hasNextPage (fuel : nat) (authorization accountId : value)
    (offset : value) (psGames : list json) : M (list json) :=
  match fuel with
  | O => diverge
  | S fuel' =>
      playedGames <- psn_call
        (GetUserPlayedGames authorization accountId 100 offset) ;;
      titles <- lift (get playedGames "titles") ;;
      psGames' <- forEach_title titles psGames ;;
      nextOffset <- lift (get playedGames "nextOffset") ;;
      let hasNextPage :=
        negb (negb (truthy nextOffset) || is_number nextOffset 0) in
      let offset' := nullish_or nextOffset (Some (JNum 0)) in
      if hasNextPage then
        while_hasNextPage fuel' authorization accountId offset' psGames'
      else
        ret psGames'
  end.

Arguments while_hasNextPage : simpl never.

Definition fetchPSGames (fuel : nat) (PS_API : string) (req : Request)
  : M unit :=
  let psnUsername := field "username" (query req) in
  if negb (truthy psnUsername) then
    respond 400 (Text "Missing PSN username") ;;
    return_
  else
    try_catch
      (let myNpsso := PS_API in
       accessCode <- psn_call (ExchangeNpssoForAccessCode myNpsso) ;;
       authorization <- psn_call (ExchangeAccessCodeForAuthTokens accessCode) ;;
       accountSearch <- psn_call
         (MakeUniversalSearch authorization psnUsername "SocialAllAccounts") ;;
       domainResponses <- lift (get accountSearch "domainResponses") ;;
       domainResponse <- lift (first domainResponses) ;;
       results <- lift (get domainResponse "results") ;;
       result <- lift (first results) ;;
       socialMetadata <- lift (get result "socialMetadata") ;;
       accountId <- lift (get socialMetadata "accountId") ;;
       psGames <- while_hasNextPage fuel authorization accountId
                    (Some (JNum 0)) [] ;;
       respond 200
         (Json (Some (object
            [("total", Some (JNum (Z.of_nat (List.length psGames))));
             ("games", Some (JArr psGames))]))))
      (fun error =>
         logger_error "Error fetching PS games:" error ;;
         respond 500 (Text "Failed to fetch PS games")).

(** ** fetchXboxGames *)

(** The arrow function of [titles.map]. *)
Definition gameInfo (game : json) : M json :=
  titleId <- lift (get (Some game) "titleId") ;;
  name <- lift (get (Some game) "name") ;;
  displayImage <- lift (get (Some game) "displayImage") ;;
  ret (object [("appid", titleId); ("name", name); ("logo", displayImage)]).

Definition fetchXboxGames (XBOX_API : string) (req : Request) : M unit :=
  let xboxKey := XBOX_API in
  let username := field "username" (query req) in
  try_catch
    (usernameResp <- fetch (xbox_search_url (to_string username))
                           [("X-Authorization", xboxKey)] ;;
     if negb (ok usernameResp) then
       respond (reply_status usernameResp) (Text "Failed to fetch Xbox XUID") ;;
       return_
     else
       xuidData <- json_of usernameResp ;;
       people <- lift (get xuidData "people") ;;
       person <- lift (first people) ;;
       xuid <- lift (get person "xuid") ;;
       let numericId := trim (to_string xuid) in
       if String.eqb numericId "" then
         respond 404 (Text "Xbox user not found") ;;
         return_
       else
         let url := xbox_history_url numericId in
         resp <- fetch url [("X-Authorization", xboxKey);
                            ("Accept-Language", "en-US")] ;;
         if negb (ok resp) then
           respond (reply_status resp)
                   (Text "Failed to fetch Xbox games, resp not ok") ;;
           return_
         else
           data <- json_of resp ;;
           data_titles <- lift (get data "titles") ;;
           let titles := falsy_or data_titles (Some (JArr [])) in
           gamesInfo <- array_map gameInfo titles ;;
           total <- lift (get_length titles) ;;
           respond 200
             (Json (Some (object
                [("games", Some (JArr gamesInfo)); ("total", total)]))))
    (fun error =>
       logger_error "Error fetching Xbox games:" error ;;
       respond 500 (Text "Failed to fetch Xbox games")).

(** * Specification vocabulary *)

(** ** Reading a property of a JSON document that is not [null] *)

Definition prop (j : json) (k : string) : value :=
  match j with
  | JObj fs => field k fs
  | _ => None
  end.

Definition grows {A} (m : M A) : Prop :=
  forall up s, exists rest, calls (snd (m up s)) = (calls s ++ rest)%list.

(** An upstream game record with its [appid] and its [name]. *)
Definition game_record (g appid name : json) : Prop :=
  exists fs,
    g = JObj fs /\ field "appid" fs = Some appid /\ field "name" fs = Some name.

(** [g'] is [g] cut down to exactly [{appid, name}]. *)
Definition simplified (g g' : json) : Prop :=
  exists appid name,
    game_record g appid name /\ g' = JObj [("appid", appid); ("name", name)].

(** What [simplify] builds from a document that is not [null]. *)
Definition appid_and_name (g : json) : json :=
  object [("appid", prop g "appid"); ("name", prop g "name")].

(** ** Concrete requests and upstreams *)

(** The stub of the end-to-end example: the vanity lookup succeeds, the
    owned-games document carries [game_count] and records with a playtime. *)
Definition example_vanity : json :=
  JObj [("response", JObj [("success", JNum 1);
                            ("steamid", JStr "76561198000000000")])].

Definition example_owned_games : json :=
  JObj [("response",
         JObj [("game_count", JNum 2);
               ("games",
                JArr [JObj [("appid", JNum 10); ("name", JStr "Game A");
                            ("playtime_forever", JNum 731)];
                      JObj [("appid", JNum 20); ("name", JStr "Game B");
                            ("playtime_forever", JNum 0)]])])].

Definition example_steam : Upstream :=
  mkUpstream
    (fun n _ _ =>
       match n with
       | O => Resolved (mkReply 200 (Some example_vanity))
       | _ => Resolved (mkReply 200 (Some example_owned_games))
       end)
    (fun _ _ => Rejected).

Definition example_steam_request : Request :=
  mkRequest [("vanityurl", JStr "exampleuser")].

(** ** The paged title list of fetchPSGames *)

(** The state after one more outbound call. *)
Definition called (c : Call) (s : State) : State :=
  mkState (calls s ++ [c]) (logged s) (sent s).

(** The category test of the [forEach] callback, on a title document. *)
Definition accepted (title : json) : bool :=
  (is_string (prop title "category") "ps4_game"
   || is_string (prop title "category") "ps5_native_game")%bool.

(** The object the callback pushes for a title. *)
Definition normalized (title : json) : json :=
  object [("appid", prop title "titleId"); ("name", prop title "name");
          ("logo", prop title "imageUrl")].

Definition titles_of (page : json) : list json :=
  match prop page "titles" with
  | Some (JArr titles) => titles
  | _ => []
  end.

(** The kept titles of a sequence of pages: page after page, and inside a
    page in the order of the page. *)
Definition kept_titles (pages : list json) : list json :=
  flat_map (fun page => map normalized (filter accepted (titles_of page)))
           pages.

(** The cursor the loop holds after a page. *)
Definition cursor_after (page : json) : value :=
  nullish_or (prop page "nextOffset") (Some (JNum 0)).

(** [pages] are the documents the upstream returns to the successive page
    requests of the loop, the first of them being outbound call number [n]
    and asking for [offset]. *)
Fixpoint answered (up : Upstream) (authorization accountId : value) (n : nat)
    (offset : value) (pages : list json) : Prop :=
  match pages with
  | [] => True
  | page :: rest =>
      psn up n (GetUserPlayedGames authorization accountId 100 offset)
        = Resolved (Some page)
      /\ answered up authorization accountId (S n) (cursor_after page) rest
  end.

(** The page requests themselves. *)
Fixpoint page_calls (authorization accountId : value) (offset : value)
    (pages : list json) : list Call :=
  match pages with
  | [] => []
  | page :: rest =>
      Psn (GetUserPlayedGames authorization accountId 100 offset)
      :: page_calls authorization accountId (cursor_after page) rest
  end.

(** Every page but the last announces a next page, the last one does not. *)
Fixpoint drained (pages : list json) : Prop :=
  match pages with
  | [] => False
  | page :: rest =>
      match rest with
      | [] => truthy (prop page "nextOffset") = false
      | _ :: _ => truthy (prop page "nextOffset") = true /\ drained rest
      end
  end.

(** A page as [PsnPlayedResponse] declares it: [titles] is a list, and no
    entry is [null]. *)
Definition well_formed_page (page : json) : Prop :=
  exists titles,
    prop page "titles" = Some (JArr titles)
    /\ Forall (fun title => title <> JNull) titles.

(** The account ID of the first result of an account search shaped as
    [PsnSearchResponse] declares it. *)
Definition first_account (search : json) : option value :=
  match prop search "domainResponses" with
  | Some (JArr (domainResponse :: _)) =>
      match prop domainResponse "results" with
      | Some (JArr (result :: _)) =>
          match prop result "socialMetadata" with
          | Some (JObj socialMetadata) =>
              Some (field "accountId" socialMetadata)
          | _ => None
          end
      | _ => None
      end
  | _ => None
  end.

(** The results of the first domain of an account search. *)
Definition search_results (search : json) : option (list json) :=
  match prop search "domainResponses" with
  | Some (JArr (domainResponse :: _)) =>
      match prop domainResponse "results" with
      | Some (JArr results) => Some results
      | _ => None
      end
  | _ => None
  end.

(** ** The shape of a normalized game *)

(** Present and not the empty string; the [appid] of Steam is a number. *)
Definition nonempty (v : value) : bool :=
  match v with
  | Some (JStr s) => negb (String.eqb s "")
  | Some (JNum _) => true
  | _ => false
  end.

(** Absent, or a string that is not empty. *)
Definition absent_or_nonempty (v : value) : bool :=
  match v with
  | None => true
  | Some (JStr s) => negb (String.eqb s "")
  | _ => false
  end.

Definition normalized_shape (game : json) : bool :=
  (nonempty (prop game "appid") && nonempty (prop game "name")
   && absent_or_nonempty (prop game "logo"))%bool.

(** An upstream record whose identifier and name are not empty and whose
    image is absent or not empty. *)
Definition clean_record (id image : string) (record : json) : bool :=
  (nonempty (prop record id) && nonempty (prop record "name")
   && absent_or_nonempty (prop record image))%bool.

(** The object [gameInfo] builds for a title. *)
Definition xbox_normalized (title : json) : json :=
  object [("appid", prop title "titleId"); ("name", prop title "name");
          ("logo", prop title "displayImage")].

(** The [games] list of a JSON response. *)
Definition response_games (r : Response) : list json :=
  match body r with
  | Json (Some b) =>
      match prop b "games" with
      | Some (JArr games) => games
      | _ => []
      end
  | _ => []
  end.

(** The game records of an owned-games document. *)
Definition owned_games (gamesData : json) : list json :=
  match prop gamesData "response" with
  | Some gamesData_response =>
      match prop gamesData_response "games" with
      | Some (JArr games) => games
      | _ => []
      end
  | None => []
  end.

(** One page with a title whose identifier, name and image are empty
    strings, as [PsnPlayedGames] allows. *)
Definition blank_title : json :=
  JObj [("titleId", JStr ""); ("name", JStr "");
        ("category", JStr "ps4_game"); ("imageUrl", JStr "")].

Definition example_search : json :=
  JObj [("domainResponses",
         JArr [JObj [("results",
                      JArr [JObj [("socialMetadata",
                                   JObj [("accountId", JStr "42")])];
                            JObj [("socialMetadata",
                                   JObj [("accountId", JStr "43")])]])]])].

Definition psn_with_pages (pages : list json) : Upstream :=
  mkUpstream
    (fun _ _ _ => Rejected)
    (fun n _ =>
       match n with
       | 0%nat => Resolved (Some (JStr "access-code"))
       | 1%nat => Resolved (Some (JObj [("accessToken", JStr "token")]))
       | 2%nat => Resolved (Some example_search)
       | S (S (S i)) =>
           match nth_error pages i with
           | Some page => Resolved (Some page)
           | None => Rejected
           end
       end).

Definition example_psn_request : Request :=
  mkRequest [("username", JStr "player")].

(** Two pages as in the example of the paged endpoint: kept and dropped
    titles on the first page, a last page with [nextOffset: 0]. *)
Definition example_page_1 : json :=
  JObj [("titles",
         JArr [JObj [("titleId", JStr "PPSA01"); ("name", JStr "Astro");
                     ("category", JStr "ps5_native_game");
                     ("imageUrl", JStr "https://image/astro.png")];
               JObj [("titleId", JStr "CUSA99"); ("name", JStr "Video App");
                     ("category", JStr "ps4_videoservice_web_app")];
               JObj [("titleId", JStr "PPSA02"); ("name", JStr "Returnal");
                     ("category", JStr "ps5_native_game")]]);
        ("nextOffset", JNum 100)].

Definition example_page_2 : json :=
  JObj [("titles",
         JArr [JObj [("titleId", JStr "CUSA01"); ("name", JStr "Bloodborne");
                     ("category", JStr "ps4_game");
                     ("imageUrl", JStr "https://image/bb.png")]]);
        ("nextOffset", JNum 0)].

Definition example_psn : Upstream :=
  psn_with_pages [example_page_1; example_page_2].

(** An account search with no result. *)
Definition empty_search : json :=
  JObj [("domainResponses", JArr [JObj [("results", JArr [])]])].

Definition psn_no_account : Upstream :=
  mkUpstream
    (fun _ _ _ => Rejected)
    (fun n _ =>
       match n with
       | 0%nat => Resolved (Some (JStr "access-code"))
       | 1%nat => Resolved (Some (JObj [("accessToken", JStr "token")]))
       | _ => Resolved (Some empty_search)
       end).

(** A vanity lookup that reports [success: 42], "no match". *)
Definition steam_no_match : Upstream :=
  mkUpstream
    (fun _ _ _ =>
       Resolved (mkReply 200
         (Some (JObj [("response",
                       JObj [("success", JNum 42);
                             ("message", JStr "No match")])]))))
    (fun _ _ => Rejected).

(** A gamertag search that finds nobody. *)
Definition xbox_nobody : Upstream :=
  mkUpstream
    (fun _ _ _ => Resolved (mkReply 200 (Some (JObj [("people", JArr [])]))))
    (fun _ _ => Rejected).

Definition example_xbox_request : Request :=
  mkRequest [("username", JStr "MajorNelson")].

(** A search envelope with its count and pagination members. *)
Definition example_rawg : Upstream :=
  mkUpstream
    (fun _ _ _ =>
       Resolved (mkReply 200
         (Some (JObj [("count", JNum 2);
                      ("next", JStr "https://api.rawg.io/api/games?page=2");
                      ("previous", JNull);
                      ("results",
                       JArr [JObj [("id", JNum 3498);
                                   ("name", JStr "Grand Theft Auto V")];
                             JObj [("id", JNum 3328);
                                   ("name", JStr "The Witcher 3")]])]))))
    (fun _ _ => Rejected).

Definition example_rawg_request : Request :=
  mkRequest [("query", JStr "the")].

Definition empty_request : Request := mkRequest [].

(** ** Scripted upstreams and the ways a handler ends *)

(** An upstream that answers the [n]-th outbound call with the [n]-th entry
    of a script and rejects every call beyond it. *)
Definition scripted (replies : list (promise HttpReply))
    (values : list (promise value)) : Upstream :=
  mkUpstream (fun n _ _ => nth n replies Rejected)
             (fun n _ => nth n values Rejected).

(** The handler is over and has written a response on [res]: it reached its
    end or returned, no exception left it. *)
Definition responded (run : completion unit * State) : Prop :=
  (fst run = Normal tt \/ fst run = Return)
  /\ exists r, sent (snd run) = Some r.

(** At most one error was logged, and only on the way to the generic 500. *)
Definition logs_only_for (message text : string)
    (run : completion unit * State) : Prop :=
  logged (snd run) = []
  \/ exists e,
       logged (snd run) = [(message, e)]
       /\ sent (snd run) = Some (mkResponse 500 (Text text))
       /\ fst run = Normal tt.

(** The member names of a JSON object. *)
Definition keys (j : json) : list string :=
  match j with
  | JObj fs => map fst fs
  | _ => []
  end.

(** Every page announces a next page. *)
Definition all_continue (pages : list json) : Prop :=
  Forall (fun page => truthy (prop page "nextOffset") = true) pages.

(** The error a handler meets on a success reply whose body is not JSON, or
    is the JSON document [null]. *)
Definition body_error (reply : HttpReply) : Error :=
  match reply_body reply with
  | None => SyntaxError
  | Some _ => TypeError
  end.

(** ** More concrete requests and upstreams *)

(** A request that carries all three parameters. *)
Definition full_request : Request :=
  mkRequest [("query", JStr "zelda"); ("vanityurl", JStr "exampleuser");
             ("username", JStr "player")].

(** Upstreams that answer the first call with 503, and the second one. *)
Definition unavailable : Upstream :=
  scripted [Resolved (mkReply 503 None)] [].

Definition steam_games_unavailable : Upstream :=
  scripted [Resolved (mkReply 200 (Some example_vanity));
            Resolved (mkReply 429 None)] [].

Definition example_people : json :=
  JObj [("people", JArr [JObj [("xuid", JStr " 2533274792073233 ");
                               ("gamertag", JStr "MajorNelson")]])].

Definition example_title_history : json :=
  JObj [("xuid", JStr "2533274792073233");
        ("titles",
         JArr [JObj [("titleId", JStr "1144039928"); ("name", JStr "Halo");
                     ("displayImage", JStr "https://image/halo.png");
                     ("type", JStr "Game")];
               JObj [("titleId", JStr "219630713"); ("name", JStr "Forza")]])].

Definition example_xbox : Upstream :=
  scripted [Resolved (mkReply 200 (Some example_people));
            Resolved (mkReply 200 (Some example_title_history))] [].

Definition xbox_history_unavailable : Upstream :=
  scripted [Resolved (mkReply 200 (Some example_people));
            Resolved (mkReply 500 None)] [].

(** A gamertag search whose first person has a blank [xuid], and one whose
    first person has none. *)
Definition xbox_blank_xuid : Upstream :=
  scripted [Resolved (mkReply 200
              (Some (JObj [("people",
                            JArr [JObj [("xuid", JStr (" " ++ nbsp))]])])))]
           [].

Definition xbox_no_xuid : Upstream :=
  scripted [Resolved (mkReply 200
              (Some (JObj [("people",
                            JArr [JObj [("gamertag", JStr "Ghost")]])])))]
           [].

(** No upstream at all, and one that answers 200 with a body that is not
    JSON. *)
Definition offline : Upstream := scripted [] [].

Definition html_page : Upstream :=
  scripted [Resolved (mkReply 200 None)] [].

(** A search envelope without [results]. *)
Definition rawg_without_results : Upstream :=
  scripted [Resolved (mkReply 200 (Some (JObj [("detail", JStr "ok")])))] [].

(** The psn-api answers of [example_psn] up to the first page; the request
    of the second page is rejected. *)
Definition psn_breaks_after_first_page : Upstream :=
  psn_with_pages [example_page_1].

(** ** Where the games of a response come from *)

(** [pages] are the documents the upstream returned to the page requests
    [requests], the first of which was outbound call number [n]. *)
Fixpoint served (up : Upstream) (n : nat) (requests : list Call)
    (pages : list json) : Prop :=
  match requests, pages with
  | [], [] => True
  | request :: requests', page :: pages' =>
      (exists authorization accountId offset,
          request = Psn (GetUserPlayedGames authorization accountId 100
                                            offset)
          /\ psn up n (GetUserPlayedGames authorization accountId 100 offset)
             = Resolved (Some page))
      /\ served up (S n) requests' pages'
  | _, _ => False
  end.

(** [game] carries the identifier, the name and the image of the upstream
    [record] as its [appid], [name] and [logo], unchanged. *)
Definition copies (id image : string) (record game : json) : Prop :=
  prop game "appid" = prop record id
  /\ prop game "name" = prop record "name"
  /\ prop game "logo" = prop record image.

(** The same for Steam, whose games get no [logo]. *)
Definition copies_without_logo (record game : json) : Prop :=
  prop game "appid" = prop record "appid"
  /\ prop game "name" = prop record "name"
  /\ prop game "logo" = None.

(** A response is a 200 with a JSON body, or another status with one of the
    fixed [texts]. *)
Definition json_or_fixed_text (texts : list string) (r : Response) : Prop :=
  (status r = 200 /\ exists v, body r = Json v)
  \/ (status r <> 200 /\ exists t, body r = Text t /\ In t texts).

(** * Properties *)

(** ** Running a handler symbolically *)

Ltac unfold_js :=
  unfold handle, bind, try_catch, fetch, json_of, psn_call, respond,
    logger_error, return_, throw, ret, lift, diverge, start.

Ltac js_step :=
  match goal with
  | H : http _ _ _ _ = _ |- _ => rewrite H
  | H : psn _ _ _ = _ |- _ => rewrite H
  | H : ok _ = _ |- _ => rewrite H
  | H : reply_body _ = _ |- _ => rewrite H
  | H : field _ _ = _ |- _ => rewrite H
  | H : get _ _ = _ |- _ => rewrite H
  | H : first _ = _ |- _ => rewrite H
  | H : truthy _ = _ |- _ => rewrite H
  | H : is_number _ _ = _ |- _ => rewrite H
  end.

Lemma get_object :
  forall fs k, get (Some (JObj fs)) k = inr (field k fs).
Proof. reflexivity. Qed.

Lemma first_of_list :
  forall items, first (Some (JArr items)) = inr (nth_error items 0).
Proof. reflexivity. Qed.

Ltac run_js :=
  unfold_js; cbn;
  repeat (first [js_step | rewrite get_object | rewrite first_of_list]; cbn).

(** ** fetchSuggestions *)

(** C9. When the one outbound search call succeeds and its body is an
    envelope whose [results] member is a list, the handler answers 200 with
    exactly that list: the body is an array, so no member of the envelope
    ([count], [next], [previous], ...) can be read from it. *)
Theorem fetchSuggestions_returns_results :
  forall (up : Upstream) (key : string) (req : Request) (q : json)
         (reply : HttpReply) (envelope : list (string * json))
         (results : list json),
    field "query" (query req) = Some q ->
    truthy (Some q) = true ->
    http up 0 (rawg_search_url key (to_string (Some q))) [] = Resolved reply ->
    ok reply = true ->
    reply_body reply = Some (JObj envelope) ->
    field "results" envelope = Some (JArr results) ->
    handle (fetchSuggestions key req) up =
      (Normal tt,
       mkState [Fetch (rawg_search_url key (to_string (Some q))) []] []
               (Some (mkResponse 200 (Json (Some (JArr results))))))
    /\ forall k, get (Some (JArr results)) k = inr undefined.
Proof.
  intros up key req q reply envelope results Hq Htruthy Hhttp Hok Hbody Hres.
  split; [| reflexivity].
  unfold fetchSuggestions.
  rewrite Hq, Htruthy.
  run_js.
  reflexivity.
Qed.

Lemma get_prop : forall j k, j <> JNull -> get (Some j) k = inr (prop j k).
Proof.
  intros j k Hj. destruct j; try reflexivity. contradiction.
Qed.

Lemma is_number_other :
  forall v n, v <> Some (JNum n) -> is_number v n = false.
Proof.
  intros [[| b | m | s | l | fs] |] n Hv; try reflexivity.
  simpl. destruct (Z.eqb_spec m n) as [-> | Hne]; [contradiction | reflexivity].
Qed.

(** ** The log of outbound calls only grows *)

Lemma grows_ret : forall A (a : A), grows (ret a).
Proof. intros A a up s. exists []. symmetry. apply app_nil_r. Qed.

Lemma grows_throw : forall A e, grows (@throw A e).
Proof. intros A e up s. exists []. symmetry. apply app_nil_r. Qed.

Lemma grows_return_ : forall A, grows (@return_ A).
Proof. intros A up s. exists []. symmetry. apply app_nil_r. Qed.

Lemma grows_diverge : forall A, grows (@diverge A).
Proof. intros A up s. exists []. symmetry. apply app_nil_r. Qed.

Lemma grows_lift : forall A (r : Error + A), grows (lift r).
Proof. intros A [e | a]; [apply grows_throw | apply grows_ret]. Qed.

Lemma grows_respond : forall code b, grows (respond code b).
Proof. intros code b up s. exists []. symmetry. apply app_nil_r. Qed.

Lemma grows_logger_error : forall msg e, grows (logger_error msg e).
Proof. intros msg e up s. exists []. symmetry. apply app_nil_r. Qed.

Lemma grows_json_of : forall r, grows (json_of r).
Proof.
  intros r. unfold json_of.
  destruct (reply_body r); [apply grows_ret | apply grows_throw].
Qed.

Lemma grows_fetch : forall url headers, grows (fetch url headers).
Proof.
  intros url headers up s. exists [Fetch url headers]. unfold fetch.
  destruct (http up (List.length (calls s)) url headers); reflexivity.
Qed.

Lemma grows_psn_call : forall c, grows (psn_call c).
Proof.
  intros c up s. exists [Psn c]. unfold psn_call.
  destruct (psn up (List.length (calls s)) c); reflexivity.
Qed.

Lemma grows_bind :
  forall A B (m : M A) (k : A -> M B),
    grows m -> (forall a, grows (k a)) -> grows (bind m k).
Proof.
  intros A B m k Hm Hk up s. unfold bind.
  destruct (Hm up s) as [rest Hrest].
  destruct (m up s) as [[a | e | |] s']; simpl in *; eauto.
  destruct (Hk a up s') as [rest' Hrest'].
  exists (rest ++ rest')%list.
  rewrite Hrest', Hrest. symmetry. apply app_assoc.
Qed.

Lemma grows_try_catch :
  forall A (m : M A) (h : Error -> M A),
    grows m -> (forall e, grows (h e)) -> grows (try_catch m h).
Proof.
  intros A m h Hm Hh up s. unfold try_catch.
  destruct (Hm up s) as [rest Hrest].
  destruct (m up s) as [[a | e | |] s']; simpl in *; eauto.
  destruct (Hh e up s') as [rest' Hrest'].
  exists (rest ++ rest')%list.
  rewrite Hrest', Hrest. symmetry. apply app_assoc.
Qed.

Lemma grows_map_items :
  forall (f : json -> M json),
    (forall i, grows (f i)) -> forall items, grows (map_items f items).
Proof.
  intros f Hf items. induction items as [| i rest IH]; simpl.
  - apply grows_ret.
  - apply grows_bind; [apply Hf |]. intros y.
    apply grows_bind; [apply IH |]. intros ys. apply grows_ret.
Qed.

Lemma grows_array_map :
  forall (f : json -> M json),
    (forall i, grows (f i)) -> forall v, grows (array_map f v).
Proof.
  intros f Hf [[| b | n | t | items | fs] |]; simpl;
    try apply grows_throw.
  apply grows_map_items, Hf.
Qed.

Create HintDb grows.
#[export] Hint Resolve grows_ret grows_throw grows_return_ grows_diverge
  grows_lift grows_respond grows_logger_error grows_json_of grows_fetch
  grows_psn_call grows_map_items grows_array_map : grows.

Ltac grows :=
  repeat first
    [ progress auto with grows
    | apply grows_bind; [| intros ?]
    | apply grows_try_catch; [| intros ?]
    | match goal with
      | |- grows (if ?b then _ else _) => destruct b
      | |- grows (let _ := _ in _) => cbv zeta
      end ].

Lemma grows_gameInfo : forall game, grows (gameInfo game).
Proof. intros game. unfold gameInfo. grows. Qed.

#[export] Hint Resolve grows_gameInfo : grows.

(** What a handler that starts with a [fetch] has called first. *)
Lemma first_call_is_fetch :
  forall A url headers (k : HttpReply -> M A) (h : Error -> M A) up,
    (forall r, grows (k r)) ->
    (forall e, grows (h e)) ->
    exists rest,
      calls (snd (try_catch (bind (fetch url headers) k) h up start)) =
        Fetch url headers :: rest.
Proof.
  intros A url headers k h up Hk Hh.
  unfold try_catch, bind, fetch, start. simpl.
  destruct (http up 0 url headers) as [| r].
  - destruct (Hh NetworkError up (mkState [Fetch url headers] [] None))
      as [rest Hrest].
    exists rest. rewrite Hrest. reflexivity.
  - destruct (Hk r up (mkState [Fetch url headers] [] None)) as [rest Hrest].
    destruct (k r up (mkState [Fetch url headers] [] None))
      as [[a | e | |] s'] eqn:Hrun; simpl in *; eauto.
    destruct (Hh e up s') as [rest' Hrest'].
    exists (rest ++ rest')%list. rewrite Hrest', Hrest. reflexivity.
Qed.

(** ** Missing query parameters *)

(** C4. With the required query parameter absent, [fetchSuggestions],
    [fetchSteamGames] and [fetchPSGames] answer 400 and return with no
    outbound call made.  [fetchXboxGames] checks nothing: whatever the
    request, its first outbound call is the gamertag search, made with the
    [username] parameter as it is (the text [undefined] when absent). *)
Theorem missing_parameter :
  forall (up : Upstream) (key : string) (fuel : nat)
         (req_s req_a req_b req_c : Request),
    field "query" (query req_s) = None ->
    field "vanityurl" (query req_a) = None ->
    field "username" (query req_b) = None ->
    handle (fetchSuggestions key req_s) up =
      (Return,
       mkState [] [] (Some (mkResponse 400 (Text "Missing search query"))))
    /\ handle (fetchSteamGames key req_a) up =
      (Return,
       mkState [] [] (Some (mkResponse 400 (Text "Missing Steam vanity URL"))))
    /\ handle (fetchPSGames fuel key req_b) up =
      (Return,
       mkState [] [] (Some (mkResponse 400 (Text "Missing PSN username"))))
    /\ (exists rest,
          calls (snd (handle (fetchXboxGames key req_c) up)) =
            Fetch (xbox_search_url
                     (to_string (field "username" (query req_c))))
                  [("X-Authorization", key)] :: rest)
    /\ (field "username" (query req_c) = None ->
        to_string (field "username" (query req_c)) = "undefined").
Proof.
  intros up key fuel req_s req_a req_b req_c Hs Ha Hb.
  repeat split.
  - unfold fetchSuggestions. rewrite Hs. reflexivity.
  - unfold fetchSteamGames. rewrite Ha. reflexivity.
  - unfold fetchPSGames. rewrite Hb. reflexivity.
  - unfold fetchXboxGames, handle.
    apply first_call_is_fetch.
    + intros usernameResp. grows.
    + intros e. grows.
  - intros H. rewrite H. reflexivity.
Qed.

(** ** fetchSteamGames *)

(** C6. When the vanity lookup answers with a success status and a document
    whose [response.success] is anything but the number 1, the handler
    answers 404 and returns: the lookup is the only outbound call. *)
Theorem fetchSteamGames_user_not_found :
  forall (up : Upstream) (key : string) (req : Request) (v : json)
         (reply : HttpReply) (data : json) (data_response success : value),
    field "vanityurl" (query req) = Some v ->
    truthy (Some v) = true ->
    http up 0 (steam_vanity_url key (to_string (Some v))) [] = Resolved reply ->
    ok reply = true ->
    reply_body reply = Some data ->
    get (Some data) "response" = inr data_response ->
    get data_response "success" = inr success ->
    success <> Some (JNum 1) ->
    handle (fetchSteamGames key req) up =
      (Return,
       mkState [Fetch (steam_vanity_url key (to_string (Some v))) []] []
               (Some (mkResponse 404 (Text "Steam user not found")))).
Proof.
  intros up key req v reply data data_response success
         Hv Htruthy Hhttp Hok Hbody Hresp Hsucc Hne.
  apply is_number_other in Hne.
  unfold fetchSteamGames.
  rewrite Hv, Htruthy.
  run_js.
  reflexivity.
Qed.

Lemma simplify_run :
  forall g up s, g <> JNull -> simplify g up s = (Normal (appid_and_name g), s).
Proof.
  intros g up s Hg. destruct g; try reflexivity. contradiction.
Qed.

Lemma map_items_simplify :
  forall games up s,
    Forall (fun g => g <> JNull) games ->
    map_items simplify games up s = (Normal (map appid_and_name games), s).
Proof.
  intros games up s Hgames. induction Hgames as [| g rest Hg _ IH].
  - reflexivity.
  - simpl. unfold bind. rewrite (simplify_run g up s Hg), IH. reflexivity.
Qed.

Lemma map_items_simplify_inv :
  forall games up s out s',
    map_items simplify games up s = (Normal out, s') ->
    s' = s /\ out = map appid_and_name games.
Proof.
  induction games as [| g rest IH]; intros up s out s' Hrun.
  - inversion Hrun. auto.
  - simpl in Hrun. unfold bind in Hrun.
    destruct g; try discriminate Hrun;
      (rewrite simplify_run in Hrun by discriminate;
       destruct (map_items simplify rest up s) as [[ys | e | |] s1] eqn:Hrest;
       try discriminate Hrun;
       apply IH in Hrest; destruct Hrest as [-> ->];
       inversion Hrun; auto).
Qed.

Lemma map_items_simplify_cases :
  forall games up s,
    map_items simplify games up s = (Normal (map appid_and_name games), s)
    \/ map_items simplify games up s = (Throw TypeError, s).
Proof.
  induction games as [| g rest IH]; intros up s.
  - left. reflexivity.
  - simpl. unfold bind.
    destruct g; try (right; reflexivity);
      (rewrite simplify_run by discriminate;
       destruct (IH up s) as [-> | ->]; [left | right]; reflexivity).
Qed.

Lemma array_map_simplify_cases :
  forall v up s,
    (exists games,
        v = Some (JArr games)
        /\ array_map simplify v up s = (Normal (map appid_and_name games), s))
    \/ array_map simplify v up s = (Throw TypeError, s).
Proof.
  intros [[| b | n | t | items | fs] |] up s; try (right; reflexivity).
  destruct (map_items_simplify_cases items up s) as [H | H].
  - left. exists items. auto.
  - right. exact H.
Qed.

Lemma get_some_inv :
  forall v k x,
    get v k = inr (Some x) ->
    exists fs, v = Some (JObj fs) /\ field k fs = Some x.
Proof.
  intros [[| b | n | t | items | fs] |] k x H; try discriminate H.
  exists fs. split; [reflexivity |]. inversion H. reflexivity.
Qed.

Lemma simplified_appid_and_name :
  forall g, (exists a n, game_record g a n) -> simplified g (appid_and_name g).
Proof.
  intros g (a & n & fs & -> & Ha & Hn).
  exists a, n. split.
  - exists fs. auto.
  - unfold appid_and_name, object. simpl. rewrite Ha, Hn. reflexivity.
Qed.

(** C3. When both upstream calls succeed, the vanity lookup reports
    [success: 1] and the owned-games document lists game records, the
    handler answers 200 with the body [{games: [...]}] in which every
    upstream record, in order, is cut down to exactly [{appid, name}]. *)
Theorem fetchSteamGames_simplifies :
  forall (up : Upstream) (key : string) (req : Request) (v : json)
         (reply1 reply2 : HttpReply)
         (data data_response gamesData gamesData_response
            : list (string * json))
         (games : list json),
    field "vanityurl" (query req) = Some v ->
    truthy (Some v) = true ->
    http up 0 (steam_vanity_url key (to_string (Some v))) [] = Resolved reply1 ->
    ok reply1 = true ->
    reply_body reply1 = Some (JObj data) ->
    field "response" data = Some (JObj data_response) ->
    field "success" data_response = Some (JNum 1) ->
    http up 1 (steam_games_url key
                 (to_string (field "steamid" data_response))) []
      = Resolved reply2 ->
    ok reply2 = true ->
    reply_body reply2 = Some (JObj gamesData) ->
    field "response" gamesData = Some (JObj gamesData_response) ->
    field "games" gamesData_response = Some (JArr games) ->
    Forall (fun g => exists appid name, game_record g appid name) games ->
    exists simplifiedGames,
      Forall2 simplified games simplifiedGames
      /\ handle (fetchSteamGames key req) up =
          (Normal tt,
           mkState
             [Fetch (steam_vanity_url key (to_string (Some v))) [];
              Fetch (steam_games_url key
                       (to_string (field "steamid" data_response))) []]
             []
             (Some (mkResponse 200
                (Json (Some (JObj [("games", JArr simplifiedGames)])))))).
Proof.
  intros up key req v reply1 reply2 data data_response gamesData
         gamesData_response games
         Hv Htruthy Hhttp1 Hok1 Hbody1 Hresp1 Hsucc Hhttp2 Hok2 Hbody2
         Hresp2 Hgames Hrecords.
  exists (map appid_and_name games). split.
  - clear - Hrecords. induction Hrecords as [| g rest Hg _ IH]; simpl.
    + constructor.
    + constructor; [apply simplified_appid_and_name, Hg | exact IH].
  - unfold fetchSteamGames.
    rewrite Hv, Htruthy.
    run_js.
    rewrite map_items_simplify.
    + reflexivity.
    + eapply Forall_impl; [| exact Hrecords].
      intros g (a & n & fs & -> & _). discriminate.
Qed.

(** A profile whose games are hidden: the owned-games call succeeds but its
    [response] has no [games] member, so [.map] throws and the handler
    answers 500 through its [catch]. *)
Lemma fetchSteamGames_without_games_list :
  forall (up : Upstream) (key : string) (req : Request) (v : json)
         (reply1 reply2 : HttpReply)
         (data data_response gamesData gamesData_response
            : list (string * json)),
    field "vanityurl" (query req) = Some v ->
    truthy (Some v) = true ->
    http up 0 (steam_vanity_url key (to_string (Some v))) [] = Resolved reply1 ->
    ok reply1 = true ->
    reply_body reply1 = Some (JObj data) ->
    field "response" data = Some (JObj data_response) ->
    field "success" data_response = Some (JNum 1) ->
    http up 1 (steam_games_url key
                 (to_string (field "steamid" data_response))) []
      = Resolved reply2 ->
    ok reply2 = true ->
    reply_body reply2 = Some (JObj gamesData) ->
    field "response" gamesData = Some (JObj gamesData_response) ->
    field "games" gamesData_response = None ->
    sent (snd (handle (fetchSteamGames key req) up)) =
      Some (mkResponse 500 (Text "Failed to fetch Steam games")).
Proof.
  intros up key req v reply1 reply2 data data_response gamesData
         gamesData_response
         Hv Htruthy Hhttp1 Hok1 Hbody1 Hresp1 Hsucc Hhttp2 Hok2 Hbody2
         Hresp2 Hgames.
  unfold fetchSteamGames.
  rewrite Hv, Htruthy.
  run_js.
  reflexivity.
Qed.

(** ** fetchXboxGames *)

(** C8. When the gamertag search answers with a success status and an empty
    [people] list, reading [people[0].xuid] throws a [TypeError]; the
    [catch] of the handler logs it and answers the generic 500.  The handler
    completes normally and has made no second outbound call. *)
Theorem fetchXboxGames_empty_people :
  forall (up : Upstream) (key : string) (req : Request)
         (reply : HttpReply) (xuidData : list (string * json)),
    http up 0 (xbox_search_url (to_string (field "username" (query req))))
         [("X-Authorization", key)] = Resolved reply ->
    ok reply = true ->
    reply_body reply = Some (JObj xuidData) ->
    field "people" xuidData = Some (JArr []) ->
    handle (fetchXboxGames key req) up =
      (Normal tt,
       mkState
         [Fetch (xbox_search_url (to_string (field "username" (query req))))
                [("X-Authorization", key)]]
         [("Error fetching Xbox games:", TypeError)]
         (Some (mkResponse 500 (Text "Failed to fetch Xbox games")))).
Proof.
  intros up key req reply xuidData Hhttp Hok Hbody Hpeople.
  unfold fetchXboxGames.
  run_js.
  reflexivity.
Qed.

(** ** The two versions of fetchSteamGames *)

(** C10, as stated, fails on the stub of the end-to-end example: both
    versions answer 200, the version of index.ts with the upstream
    [response] as it came, the other with [{games: [...]}] of cut-down
    records. *)
Lemma fetchSteamGames_versions_differ :
  exists b_new b_old,
    sent (snd (handle (fetchSteamGames "KEY" example_steam_request)
                      example_steam))
      = Some (mkResponse 200 b_new)
    /\ sent (snd (handle (IndexTs.fetchSteamGames "KEY" example_steam_request)
                         example_steam))
      = Some (mkResponse 200 b_old)
    /\ b_new <> b_old.
Proof.
  eexists. eexists.
  split; [vm_compute; reflexivity |].
  split; [vm_compute; reflexivity |].
  discriminate.
Qed.

Ltac explore :=
  repeat (cbn;
          try (intros; congruence);
          match goal with
          | |- context [match ?x with _ => _ end] =>
              lazymatch x with
              | context [match _ with _ => _ end] => fail
              | _ => destruct x eqn:?
              end
          end);
  cbn.

(** C10, amended.  On every input on which both versions answer 200 they
    have made the same two outbound calls.  The body of the index.ts version
    is the [response] member of the owned-games document the upstream
    returned to the second call, unchanged; the body of the other version is
    [{games: [...]}] where the list is the [games] member of that same
    object with every record cut down to its [appid] and [name]. *)
Theorem fetchSteamGames_versions_related :
  forall (up : Upstream) (key : string) (req : Request) (b_new b_old : Body),
    sent (snd (handle (fetchSteamGames key req) up))
      = Some (mkResponse 200 b_new) ->
    sent (snd (handle (IndexTs.fetchSteamGames key req) up))
      = Some (mkResponse 200 b_old) ->
    calls (snd (handle (fetchSteamGames key req) up))
      = calls (snd (handle (IndexTs.fetchSteamGames key req) up))
    /\ exists first_call url reply gamesData response games,
         calls (snd (handle (IndexTs.fetchSteamGames key req) up))
           = [first_call; Fetch url []]
         /\ http up 1 url [] = Resolved reply
         /\ reply_body reply = Some gamesData
         /\ prop gamesData "response" = Some (JObj response)
         /\ b_old = Json (prop gamesData "response")
         /\ field "games" response = Some (JArr games)
         /\ b_new =
            Json (Some (JObj [("games", JArr (map appid_and_name games))])).
Proof.
  intros up key req b_new b_old.
  unfold fetchSteamGames, IndexTs.fetchSteamGames.
  unfold_js.
  explore.
  1-2: intros H _; injection H as Hst _;
       match goal with
       | Hok : negb (ok _) = true |- _ =>
           unfold ok in Hok; rewrite Hst in Hok; discriminate Hok
       end.
  all: match goal with
       | Hrun : array_map simplify ?v ?u ?s0 = _ |- _ =>
           destruct (array_map_simplify_cases v u s0)
             as [(games & -> & Hmap) | Hthrow];
           [rewrite Hmap in Hrun | rewrite Hthrow in Hrun];
           inversion Hrun; subst; try discriminate
       end.
  intros Hnew Hold. inversion Hnew. inversion Hold. subst.
  split; [reflexivity |].
  match goal with
  | Hget : get _ "games" = inr (Some (JArr games)),
    Hresponse : get (Some ?data) "response" = inr _,
    Hhttp : http up 1 _ _ = Resolved ?reply,
    Hbody : reply_body ?reply = Some ?data |- _ =>
      apply get_some_inv in Hget; destruct Hget as (response & -> & Hfield);
      pose proof Hresponse as Hprop;
      apply get_some_inv in Hprop;
      destruct Hprop as (fs & Hdata & Hfield');
      inversion Hdata; subst;
      do 2 eexists; exists reply, (JObj fs), response, games;
      split; [reflexivity |];
      split; [exact Hhttp |];
      split; [exact Hbody |];
      simpl prop; rewrite Hfield'; auto
  end.
Qed.

(** ** fetchPSGames: the forEach callback *)

Lemma keep_title_run :
  forall psGames title up s,
    title <> JNull ->
    keep_title psGames title up s =
      (Normal (if accepted title then psGames ++ [normalized title]
               else psGames)%list, s).
Proof.
  intros psGames title up s Htitle.
  unfold keep_title, bind, accepted.
  rewrite !get_prop by exact Htitle. cbn.
  destruct (is_string (prop title "category") "ps4_game"
            || is_string (prop title "category") "ps5_native_game")%bool;
    reflexivity.
Qed.

Lemma keep_title_null :
  forall psGames up s,
    keep_title psGames JNull up s = (Throw TypeError, s).
Proof. reflexivity. Qed.

Lemma each_title_run :
  forall titles psGames up s,
    Forall (fun title => title <> JNull) titles ->
    each_title psGames titles up s =
      (Normal (psGames ++ map normalized (filter accepted titles))%list, s).
Proof.
  induction titles as [| title rest IH]; intros psGames up s Hall.
  - simpl. rewrite app_nil_r. reflexivity.
  - inversion Hall as [| ? ? Htitle Hrest]; subst.
    simpl. unfold bind. rewrite keep_title_run by exact Htitle.
    rewrite IH by exact Hrest.
    destruct (accepted title); simpl.
    + rewrite <- app_assoc. reflexivity.
    + reflexivity.
Qed.

Lemma each_title_cases :
  forall titles psGames up s,
    (exists psGames', each_title psGames titles up s = (Normal psGames', s))
    \/ each_title psGames titles up s = (Throw TypeError, s).
Proof.
  induction titles as [| title rest IH]; intros psGames up s.
  - left. eexists. reflexivity.
  - simpl. unfold bind.
    destruct title; try (right; reflexivity);
      rewrite keep_title_run by discriminate; apply IH.
Qed.

Lemma forEach_title_cases :
  forall titles psGames up s,
    (exists psGames', forEach_title titles psGames up s = (Normal psGames', s))
    \/ forEach_title titles psGames up s = (Throw TypeError, s).
Proof.
  intros [[| b | n | t | items | fs] |] psGames up s;
    try (right; reflexivity).
  apply each_title_cases.
Qed.

(** ** fetchPSGames: the pagination loop *)

Lemma truthy_not_zero :
  forall v, truthy v = true -> is_number v 0 = false.
Proof.
  intros [[| b | n | t | items | fs] |] H; try reflexivity.
  simpl in *. destruct (n =? 0); [discriminate H | reflexivity].
Qed.

Lemma truthy_nullish_or :
  forall v d, truthy v = true -> nullish_or v d = v.
Proof.
  intros [[| b | n | t | items | fs] |] d H; try reflexivity;
    discriminate H.
Qed.

Lemma while_unfold :
  forall fuel authorization accountId offset psGames,
    while_hasNextPage (S fuel) authorization accountId offset psGames =
      (playedGames <- psn_call
         (GetUserPlayedGames authorization accountId 100 offset) ;;
       titles <- lift (get playedGames "titles") ;;
       psGames' <- forEach_title titles psGames ;;
       nextOffset <- lift (get playedGames "nextOffset") ;;
       if negb (negb (truthy nextOffset) || is_number nextOffset 0) then
         while_hasNextPage fuel authorization accountId
           (nullish_or nextOffset (Some (JNum 0))) psGames'
       else
         ret psGames').
Proof. reflexivity. Qed.

(** One iteration: either the loop goes on with the cursor set to the
    [nextOffset] of the page it received, or it stops, whatever fuel is
    left. *)
Lemma while_iteration :
  forall up authorization accountId offset psGames s,
    let s1 :=
      called (Psn (GetUserPlayedGames authorization accountId 100 offset)) s in
    (exists page psGames',
        psn up (List.length (calls s))
            (GetUserPlayedGames authorization accountId 100 offset)
          = Resolved (Some page)
        /\ truthy (prop page "nextOffset") = true
        /\ forall fuel,
            while_hasNextPage (S fuel) authorization accountId offset
                              psGames up s
            = while_hasNextPage fuel authorization accountId
                                (prop page "nextOffset") psGames' up s1)
    \/ (exists c,
           c <> Diverge
           /\ forall fuel,
               while_hasNextPage (S fuel) authorization accountId offset
                                 psGames up s = (c, s1)).
Proof.
  intros up authorization accountId offset psGames s s1.
  assert (Hstep : forall fuel,
    while_hasNextPage (S fuel) authorization accountId offset psGames up s =
    match psn up (List.length (calls s))
              (GetUserPlayedGames authorization accountId 100 offset) with
    | Rejected => (Throw NetworkError, s1)
    | Resolved playedGames =>
        (titles <- lift (get playedGames "titles") ;;
         psGames' <- forEach_title titles psGames ;;
         nextOffset <- lift (get playedGames "nextOffset") ;;
         if negb (negb (truthy nextOffset) || is_number nextOffset 0) then
           while_hasNextPage fuel authorization accountId
             (nullish_or nextOffset (Some (JNum 0))) psGames'
         else
           ret psGames') up s1
    end).
  { intros fuel. rewrite while_unfold. unfold bind at 1, psn_call.
    destruct (psn up (List.length (calls s))
                  (GetUserPlayedGames authorization accountId 100 offset));
      reflexivity. }
  destruct (psn up (List.length (calls s))
                (GetUserPlayedGames authorization accountId 100 offset))
    as [| [page |]] eqn:Hpsn.
  - right. exists (Throw NetworkError). split; [discriminate |].
    intros fuel. apply Hstep.
  - destruct page as [| b | n | t | items | fs];
      try (right; exists (Throw TypeError); split; [discriminate |];
           intros fuel; rewrite Hstep; reflexivity).
    destruct (forEach_title_cases (field "titles" fs) psGames up s1)
      as [[psGames' Hrun] | Hrun].
    + destruct (truthy (field "nextOffset" fs)) eqn:Htruthy.
      * left. exists (JObj fs), psGames'.
        split; [reflexivity |]. split; [exact Htruthy |].
        intros fuel. rewrite Hstep. unfold bind, lift.
        rewrite !get_object. cbn. unfold ret at 1. rewrite Hrun.
        rewrite Htruthy, (truthy_not_zero _ Htruthy),
          (truthy_nullish_or _ _ Htruthy).
        reflexivity.
      * right. exists (Normal psGames'). split; [discriminate |].
        intros fuel. rewrite Hstep. unfold bind, lift.
        rewrite !get_object. cbn. unfold ret at 1. rewrite Hrun.
        rewrite Htruthy. reflexivity.
    + right. exists (Throw TypeError). split; [discriminate |].
      intros fuel. rewrite Hstep. unfold bind, lift.
      rewrite !get_object. cbn. unfold ret at 1. rewrite Hrun.
      reflexivity.
  - right. exists (Throw TypeError). split; [discriminate |].
    intros fuel. rewrite Hstep. reflexivity.
Qed.

Lemma while_terminates :
  forall front last_page up authorization accountId offset psGames s,
    answered up authorization accountId (List.length (calls s)) offset
             (front ++ [last_page]) ->
    prop last_page "nextOffset" = None
    \/ prop last_page "nextOffset" = Some (JNum 0) ->
    exists c s',
      c <> Diverge
      /\ forall fuel,
          (List.length (front ++ [last_page]) <= fuel)%nat ->
          while_hasNextPage fuel authorization accountId offset psGames up s
          = (c, s').
Proof.
  induction front as [| page rest IH];
    intros last_page up authorization accountId offset psGames s Hans Hlast.
  - destruct Hans as [Hpsn _].
    destruct (while_iteration up authorization accountId offset psGames s)
      as [(page & psGames' & Hpage & Htruthy & _) | (c & Hc & Hrun)].
    + rewrite Hpsn in Hpage. inversion Hpage; subst page.
      destruct Hlast as [Hnext | Hnext]; rewrite Hnext in Htruthy;
        discriminate Htruthy.
    + exists c. eexists. split; [exact Hc |].
      intros [| fuel] Hfuel; [simpl in Hfuel; lia | apply Hrun].
  - destruct Hans as [Hpsn Hrest].
    destruct (while_iteration up authorization accountId offset psGames s)
      as [(page' & psGames' & Hpage & Htruthy & Hgo) | (c & Hc & Hrun)].
    + rewrite Hpsn in Hpage. inversion Hpage; subst page'.
      unfold cursor_after in Hrest.
      rewrite (truthy_nullish_or _ _ Htruthy) in Hrest.
      destruct (IH last_page up authorization accountId
                   (prop page "nextOffset") psGames'
                   (called (Psn (GetUserPlayedGames authorization accountId
                                                    100 offset)) s))
        as (c & s' & Hc & Hrun).
      * unfold called. simpl calls. rewrite length_app, Nat.add_1_r.
        exact Hrest.
      * exact Hlast.
      * exists c, s'. split; [exact Hc |].
        intros [| fuel] Hfuel; [simpl in Hfuel; lia |].
        rewrite Hgo. apply Hrun. simpl in Hfuel. lia.
    + exists c. eexists. split; [exact Hc |].
      intros [| fuel] Hfuel; [simpl in Hfuel; lia | apply Hrun].
Qed.

(** C2. The loop terminates on every finite sequence of pages whose last
    page has no [nextOffset] or the [nextOffset] 0: there is an outcome that
    is not divergence and that the loop reaches with any fuel of at least
    the number of pages.  And in every iteration the loop either goes on
    with its cursor set to the [nextOffset] of the page it received, or it
    stops whatever fuel is left. *)
Theorem pagination_terminates :
  forall (front : list json) (last_page : json) (up : Upstream)
         (authorization accountId offset : value) (psGames : list json)
         (s : State),
    answered up authorization accountId (List.length (calls s)) offset
             (front ++ [last_page]) ->
    prop last_page "nextOffset" = None
    \/ prop last_page "nextOffset" = Some (JNum 0) ->
    (exists c s',
        c <> Diverge
        /\ forall fuel,
            (List.length (front ++ [last_page]) <= fuel)%nat ->
            while_hasNextPage fuel authorization accountId offset psGames
                              up s = (c, s'))
    /\ (forall up0 authorization0 accountId0 offset0 psGames0 s0,
          let s1 :=
            called (Psn (GetUserPlayedGames authorization0 accountId0 100
                                            offset0)) s0 in
          (exists page psGames',
              psn up0 (List.length (calls s0))
                  (GetUserPlayedGames authorization0 accountId0 100 offset0)
                = Resolved (Some page)
              /\ truthy (prop page "nextOffset") = true
              /\ forall fuel,
                  while_hasNextPage (S fuel) authorization0 accountId0
                                    offset0 psGames0 up0 s0
                  = while_hasNextPage fuel authorization0 accountId0
                                      (prop page "nextOffset") psGames' up0 s1)
          \/ (exists c,
                 c <> Diverge
                 /\ forall fuel,
                     while_hasNextPage (S fuel) authorization0 accountId0
                                       offset0 psGames0 up0 s0 = (c, s1))).
Proof.
  intros front last_page up authorization accountId offset psGames s
         Hans Hlast.
  split.
  - apply while_terminates; assumption.
  - intros up0 authorization0 accountId0 offset0 psGames0 s0.
    apply while_iteration.
Qed.

(** An upstream that always announces a further page keeps the loop
    running: no amount of fuel is enough. *)
Lemma while_runs_forever :
  forall up authorization accountId page,
    (forall n offset,
        psn up n (GetUserPlayedGames authorization accountId 100 offset)
        = Resolved (Some page)) ->
    well_formed_page page ->
    truthy (prop page "nextOffset") = true ->
    forall fuel offset psGames s,
      fst (while_hasNextPage fuel authorization accountId offset psGames up s)
      = Diverge.
Proof.
  intros up authorization accountId page Hpsn Hpage Htruthy.
  induction fuel as [| fuel IH]; intros offset psGames s.
  - reflexivity.
  - destruct (while_iteration up authorization accountId offset psGames s)
      as [(page' & psGames' & Hpage' & _ & Hgo) | (c & Hc & Hrun)].
    + rewrite Hgo. apply IH.
    + exfalso.
      specialize (Hrun 0%nat). rewrite while_unfold in Hrun.
      unfold bind at 1, psn_call in Hrun. rewrite Hpsn in Hrun.
      destruct Hpage as (titles & Htitles & Hall).
      destruct page as [| b | n | t | items | fs]; try discriminate Htitles.
      simpl in Htitles, Htruthy.
      unfold bind, lift in Hrun. rewrite !get_object in Hrun.
      rewrite Htitles in Hrun. cbn in Hrun. unfold ret at 1 in Hrun.
      rewrite each_title_run in Hrun by exact Hall.
      rewrite Htruthy, (truthy_not_zero _ Htruthy) in Hrun.
      cbn in Hrun. apply Hc. inversion Hrun. reflexivity.
Qed.

Lemma while_drains :
  forall pages up authorization accountId offset psGames s fuel,
    answered up authorization accountId (List.length (calls s)) offset pages ->
    drained pages ->
    Forall well_formed_page pages ->
    (List.length pages <= fuel)%nat ->
    while_hasNextPage fuel authorization accountId offset psGames up s =
      (Normal (psGames ++ kept_titles pages)%list,
       mkState (calls s ++ page_calls authorization accountId offset pages)
               (logged s) (sent s)).
Proof.
  induction pages as [| page rest IH];
    intros up authorization accountId offset psGames s fuel
           Hans Hdrained Hwf Hfuel.
  - destruct Hdrained.
  - destruct fuel as [| fuel]; [simpl in Hfuel; lia |].
    destruct Hans as [Hpsn Hrest].
    inversion Hwf as [| ? ? (titles & Htitles & Hall) Hwf']; subst.
    destruct page as [| b | n | t | items | fs]; try discriminate Htitles.
    simpl in Htitles.
    rewrite while_unfold. unfold bind at 1, psn_call. rewrite Hpsn.
    unfold bind, lift. rewrite !get_object, Htitles. cbn.
    unfold ret at 1. rewrite each_title_run by exact Hall.
    unfold kept_titles. simpl flat_map. unfold titles_of at 1.
    simpl prop. rewrite Htitles.
    simpl in Hdrained. destruct rest as [| page' rest'].
    + rewrite Hdrained. cbn. rewrite app_nil_r. reflexivity.
    + destruct Hdrained as [Htruthy Hdrained].
      rewrite Htruthy, (truthy_not_zero _ Htruthy). cbn [negb orb].
      unfold cursor_after in Hrest. simpl prop in Hrest.
      rewrite (IH up authorization accountId _ _ _ fuel).
      * simpl calls. simpl logged. simpl sent.
        cbn [page_calls]. unfold cursor_after at 2. simpl prop.
        rewrite <- !app_assoc. reflexivity.
      * simpl calls. rewrite length_app, Nat.add_1_r. exact Hrest.
      * exact Hdrained.
      * exact Hwf'.
      * simpl in Hfuel. simpl. lia.
Qed.

(** ** fetchPSGames: the handler *)

Lemma first_account_reads :
  forall search accountId,
    first_account search = Some accountId ->
    exists domainResponses domainResponse results result socialMetadata,
      get (Some search) "domainResponses" = inr domainResponses
      /\ first domainResponses = inr domainResponse
      /\ get domainResponse "results" = inr results
      /\ first results = inr result
      /\ get result "socialMetadata" = inr socialMetadata
      /\ get socialMetadata "accountId" = inr accountId.
Proof.
  intros search accountId H. unfold first_account in H.
  destruct (prop search "domainResponses")
    as [[| | | | [| domainResponse ?] |] |] eqn:Hdr; try discriminate H.
  destruct (prop domainResponse "results")
    as [[| | | | [| result ?] |] |] eqn:Hres; try discriminate H.
  destruct (prop result "socialMetadata")
    as [[| | | | | socialMetadata] |] eqn:Hsm; try discriminate H.
  inversion H; subst accountId.
  assert (Hsearch : search <> JNull) by (intros ->; discriminate Hdr).
  assert (Hdomain : domainResponse <> JNull) by (intros ->; discriminate Hres).
  assert (Hresult : result <> JNull) by (intros ->; discriminate Hsm).
  do 5 eexists.
  rewrite (get_prop search) by exact Hsearch. rewrite Hdr.
  split; [reflexivity |]. rewrite first_of_list. simpl nth_error.
  split; [reflexivity |].
  rewrite (get_prop domainResponse) by exact Hdomain. rewrite Hres.
  split; [reflexivity |]. rewrite first_of_list. simpl nth_error.
  split; [reflexivity |].
  rewrite (get_prop result) by exact Hresult. rewrite Hsm.
  split; reflexivity.
Qed.

Lemma in_kept_titles :
  forall pages g,
    In g (kept_titles pages) <->
    exists page title,
      In page pages /\ In title (titles_of page)
      /\ (prop title "category" = Some (JStr "ps4_game")
          \/ prop title "category" = Some (JStr "ps5_native_game"))
      /\ g = normalized title.
Proof.
  assert (Hstr : forall v t, is_string v t = true <-> v = Some (JStr t)).
  { intros [[| b | n | u | items | fs] |] t; simpl;
      try (split; intros H; discriminate H).
    rewrite String.eqb_eq. split; [intros -> | intros H; inversion H];
      reflexivity. }
  intros pages g. unfold kept_titles. rewrite in_flat_map. split.
  - intros (page & Hpage & Hin).
    apply in_map_iff in Hin. destruct Hin as (title & <- & Hin).
    apply filter_In in Hin. destruct Hin as [Hin Hacc].
    exists page, title. repeat split; try assumption.
    unfold accepted in Hacc. apply orb_true_iff in Hacc.
    rewrite !Hstr in Hacc. exact Hacc.
  - intros (page & title & Hpage & Hin & Hcat & ->).
    exists page. split; [exact Hpage |].
    apply in_map. apply filter_In. split; [exact Hin |].
    unfold accepted. apply orb_true_iff. rewrite !Hstr. exact Hcat.
Qed.

(** C1. On every sequence of well-formed pages that the paged title
    endpoint returns to the loop, the handler answers 200 with
    [{total, games}]: [games] is the flat list of the normalized titles whose
    category is [ps4_game] or [ps5_native_game], page after page and in the
    order of each page; a title is in it if and only if it has one of the
    two categories; [total] is its length. *)
Theorem fetchPSGames_keeps_native_titles :
  forall (up : Upstream) (key : string) (req : Request) (username : json)
         (accessCode authorization accountId : value) (search : json)
         (pages : list json) (fuel : nat),
    field "username" (query req) = Some username ->
    truthy (Some username) = true ->
    psn up 0 (ExchangeNpssoForAccessCode key) = Resolved accessCode ->
    psn up 1 (ExchangeAccessCodeForAuthTokens accessCode)
      = Resolved authorization ->
    psn up 2 (MakeUniversalSearch authorization (Some username)
                                  "SocialAllAccounts")
      = Resolved (Some search) ->
    first_account search = Some accountId ->
    answered up authorization accountId 3 (Some (JNum 0)) pages ->
    drained pages ->
    Forall well_formed_page pages ->
    (List.length pages <= fuel)%nat ->
    handle (fetchPSGames fuel key req) up =
      (Normal tt,
       mkState
         ([Psn (ExchangeNpssoForAccessCode key);
           Psn (ExchangeAccessCodeForAuthTokens accessCode);
           Psn (MakeUniversalSearch authorization (Some username)
                                    "SocialAllAccounts")]
          ++ page_calls authorization accountId (Some (JNum 0)) pages)%list
         []
         (Some (mkResponse 200
            (Json (Some (JObj
               [("total", JNum (Z.of_nat (List.length (kept_titles pages))));
                ("games", JArr (kept_titles pages))]))))))
    /\ forall g,
        In g (kept_titles pages) <->
        exists page title,
          In page pages /\ In title (titles_of page)
          /\ (prop title "category" = Some (JStr "ps4_game")
              \/ prop title "category" = Some (JStr "ps5_native_game"))
          /\ g = normalized title.
Proof.
  intros up key req username accessCode authorization accountId search
         pages fuel Huser Htruthy Hcode Hauth Hsearch Haccount Hans
         Hdrained Hwf Hfuel.
  split; [| apply in_kept_titles].
  destruct (first_account_reads _ _ Haccount)
    as (domainResponses & domainResponse & results & result & socialMetadata
        & Hdr & Hd & Hres & Hr & Hsm & Hacc).
  unfold fetchPSGames.
  rewrite Huser, Htruthy.
  run_js.
  rewrite (while_drains pages up authorization accountId (Some (JNum 0)) []
                        _ fuel); try assumption.
  reflexivity.
Qed.

Lemma search_results_reads :
  forall search results,
    search_results search = Some results ->
    exists domainResponses domainResponse,
      get (Some search) "domainResponses" = inr domainResponses
      /\ first domainResponses = inr domainResponse
      /\ get domainResponse "results" = inr (Some (JArr results)).
Proof.
  intros search results H. unfold search_results in H.
  destruct (prop search "domainResponses")
    as [[| | | | [| domainResponse ?] |] |] eqn:Hdr; try discriminate H.
  destruct (prop domainResponse "results")
    as [[| | | | items |] |] eqn:Hres; try discriminate H.
  inversion H; subst items.
  assert (Hsearch : search <> JNull) by (intros ->; discriminate Hdr).
  assert (Hdomain : domainResponse <> JNull) by (intros ->; discriminate Hres).
  do 2 eexists.
  rewrite (get_prop search) by exact Hsearch. rewrite Hdr.
  split; [reflexivity |]. rewrite first_of_list. simpl nth_error.
  split; [reflexivity |].
  rewrite (get_prop domainResponse) by exact Hdomain. rewrite Hres.
  reflexivity.
Qed.

(** Every call the loop makes is a page request for the account it was
    entered with; with fuel for one iteration the first of them asks for
    the offset it was entered with. *)
Lemma while_calls :
  forall fuel up authorization accountId offset psGames s,
    exists more,
      calls (snd (while_hasNextPage fuel authorization accountId offset
                                    psGames up s))
        = (calls s ++ more)%list
      /\ Forall (fun c => exists offset',
                     c = Psn (GetUserPlayedGames authorization accountId 100
                                                 offset')) more
      /\ (fuel <> O ->
          exists more',
            more = Psn (GetUserPlayedGames authorization accountId 100 offset)
                   :: more').
Proof.
  induction fuel as [| fuel IH];
    intros up authorization accountId offset psGames s.
  - exists []. simpl. rewrite app_nil_r.
    split; [reflexivity |]. split; [constructor | intros H; contradiction].
  - destruct (while_iteration up authorization accountId offset psGames s)
      as [(page & psGames' & _ & _ & Hgo) | (c & _ & Hrun)].
    + rewrite Hgo.
      destruct (IH up authorization accountId (prop page "nextOffset")
                   psGames'
                   (called (Psn (GetUserPlayedGames authorization accountId
                                                    100 offset)) s))
        as (more & Hcalls & Hall & _).
      exists (Psn (GetUserPlayedGames authorization accountId 100 offset)
              :: more).
      rewrite Hcalls. simpl calls. rewrite <- app_assoc.
      split; [reflexivity |].
      split; [constructor; [eexists; reflexivity | exact Hall] |].
      intros _. eexists. reflexivity.
    + rewrite Hrun.
      exists [Psn (GetUserPlayedGames authorization accountId 100 offset)].
      split; [reflexivity |].
      split; [constructor; [eexists; reflexivity | constructor] |].
      intros _. eexists. reflexivity.
Qed.

(** C7. When the account search lists at least one result, the handler
    takes the [accountId] of the first one: the fourth outbound call is the
    request of the first page for that account, and every later call is a
    page request for it too.  When the search lists no result, reading
    [results[0].socialMetadata] throws; the handler logs the [TypeError] and
    answers the generic 500 with a text body, having requested no page. *)
Theorem fetchPSGames_first_account :
  forall (up : Upstream) (key : string) (req : Request) (username : json)
         (accessCode authorization : value) (search : json)
         (results : list json),
    field "username" (query req) = Some username ->
    truthy (Some username) = true ->
    psn up 0 (ExchangeNpssoForAccessCode key) = Resolved accessCode ->
    psn up 1 (ExchangeAccessCodeForAuthTokens accessCode)
      = Resolved authorization ->
    psn up 2 (MakeUniversalSearch authorization (Some username)
                                  "SocialAllAccounts")
      = Resolved (Some search) ->
    search_results search = Some results ->
    (forall result rest socialMetadata fuel,
        results = result :: rest ->
        prop result "socialMetadata" = Some (JObj socialMetadata) ->
        exists more,
          calls (snd (handle (fetchPSGames (S fuel) key req) up)) =
            ([Psn (ExchangeNpssoForAccessCode key);
              Psn (ExchangeAccessCodeForAuthTokens accessCode);
              Psn (MakeUniversalSearch authorization (Some username)
                                       "SocialAllAccounts");
              Psn (GetUserPlayedGames authorization
                     (field "accountId" socialMetadata) 100 (Some (JNum 0)))]
             ++ more)%list
          /\ Forall (fun c => exists offset,
                         c = Psn (GetUserPlayedGames authorization
                                    (field "accountId" socialMetadata) 100
                                    offset)) more)
    /\ (results = [] ->
        forall fuel,
          handle (fetchPSGames fuel key req) up =
            (Normal tt,
             mkState
               [Psn (ExchangeNpssoForAccessCode key);
                Psn (ExchangeAccessCodeForAuthTokens accessCode);
                Psn (MakeUniversalSearch authorization (Some username)
                                         "SocialAllAccounts")]
               [("Error fetching PS games:", TypeError)]
               (Some (mkResponse 500 (Text "Failed to fetch PS games"))))).
Proof.
  intros up key req username accessCode authorization search results
         Huser Htruthy Hcode Hauth Hsearch Hresults.
  destruct (search_results_reads _ _ Hresults)
    as (domainResponses & domainResponse & Hdr & Hd & Hres).
  split.
  - intros result rest socialMetadata fuel -> Hsm.
    assert (Hresult : result <> JNull) by (intros ->; discriminate Hsm).
    assert (Hget : get (Some result) "socialMetadata"
                   = inr (Some (JObj socialMetadata))).
    { rewrite get_prop by exact Hresult. rewrite Hsm. reflexivity. }
    unfold fetchPSGames.
    rewrite Huser, Htruthy.
    run_js.
    match goal with
    | |- context [while_hasNextPage (S fuel) ?a ?i ?o ?g up ?s] =>
        destruct (while_calls (S fuel) up a i o g s)
          as (more & Hcalls & Hall & Hfirst);
        destruct (while_hasNextPage (S fuel) a i o g up s)
          as [[psGames | e | |] s'] eqn:Hrun
    end;
      simpl in Hcalls;
      (destruct Hfirst as [more' ->]; [discriminate |]);
      inversion Hall; subst;
      exists more'; cbn; rewrite Hcalls;
      (split; [reflexivity | assumption]).
  - intros -> fuel.
    unfold fetchPSGames.
    rewrite Huser, Htruthy.
    run_js.
    reflexivity.
Qed.

(** ** The shape of the normalized games *)

(** C5, as stated, fails on a title whose identifier, name and image are
    empty strings: the handler answers 200 and copies them. *)
Lemma normalized_game_can_be_blank :
  exists r g,
    sent (snd (handle (fetchPSGames 1 "NPSSO" example_psn_request)
                      (psn_with_pages
                         [JObj [("titles", JArr [blank_title])]])))
      = Some r
    /\ status r = 200
    /\ In g (response_games r)
    /\ prop g "appid" = Some (JStr "")
    /\ prop g "name" = Some (JStr "")
    /\ prop g "logo" = Some (JStr "")
    /\ normalized_shape g = false.
Proof.
  eexists. eexists.
  split; [vm_compute; reflexivity |].
  split; [reflexivity |].
  split; [left; reflexivity |].
  repeat split.
Qed.

Lemma shape_of_object :
  forall appid name logo,
    nonempty appid = true ->
    nonempty name = true ->
    absent_or_nonempty logo = true ->
    normalized_shape (object [("appid", appid); ("name", name);
                               ("logo", logo)]) = true.
Proof.
  intros [appid |] [name |] logo Happid Hname Hlogo;
    try discriminate Happid; try discriminate Hname.
  unfold normalized_shape.
  destruct logo as [logo |];
    cbn -[nonempty absent_or_nonempty];
    rewrite Happid, Hname; [rewrite Hlogo |]; reflexivity.
Qed.

Lemma normalized_clean :
  forall title,
    clean_record "titleId" "imageUrl" title = true ->
    normalized_shape (normalized title) = true.
Proof.
  intros title H. unfold clean_record in H.
  apply andb_true_iff in H. destruct H as [H Hlogo].
  apply andb_true_iff in H. destruct H as [Hid Hname].
  apply shape_of_object; assumption.
Qed.

Lemma xbox_normalized_clean :
  forall title,
    clean_record "titleId" "displayImage" title = true ->
    normalized_shape (xbox_normalized title) = true.
Proof.
  intros title H. unfold clean_record in H.
  apply andb_true_iff in H. destruct H as [H Hlogo].
  apply andb_true_iff in H. destruct H as [Hid Hname].
  apply shape_of_object; assumption.
Qed.

Lemma appid_and_name_clean :
  forall game,
    nonempty (prop game "appid") = true ->
    nonempty (prop game "name") = true ->
    normalized_shape (appid_and_name game) = true.
Proof.
  intros game Hid Hname. unfold appid_and_name, normalized_shape.
  destruct (prop game "appid") as [appid |]; try discriminate Hid.
  destruct (prop game "name") as [name |]; try discriminate Hname.
  change (nonempty (Some appid) && nonempty (Some name) && true = true)%bool.
  rewrite Hid, Hname. reflexivity.
Qed.

(** The callback keeps the shape of what it has pushed so far. *)
Lemma each_title_shape :
  forall titles psGames up s c s',
    Forall (fun t => clean_record "titleId" "imageUrl" t = true) titles ->
    Forall (fun g => normalized_shape g = true) psGames ->
    each_title psGames titles up s = (c, s') ->
    s' = s
    /\ forall psGames',
        c = Normal psGames' ->
        Forall (fun g => normalized_shape g = true) psGames'.
Proof.
  induction titles as [| title rest IH];
    intros psGames up s c s' Hclean Hshape Hrun.
  - inversion Hrun; subst. split; [reflexivity |].
    intros psGames' H. inversion H; subst. exact Hshape.
  - inversion Hclean as [| ? ? Htitle Hrest]; subst.
    simpl in Hrun. unfold bind in Hrun.
    assert (Hnull : title <> JNull) by (intros ->; discriminate Htitle).
    rewrite keep_title_run in Hrun by exact Hnull.
    apply IH in Hrun; [exact Hrun | exact Hrest |].
    destruct (accepted title); [| exact Hshape].
    apply Forall_app. split; [exact Hshape |].
    constructor; [apply normalized_clean, Htitle | constructor].
Qed.

(** The loop leaves the response alone and keeps the shape of the list. *)
Lemma while_shape :
  forall up,
    (forall n c page,
        psn up n c = Resolved (Some page) ->
        Forall (fun t => clean_record "titleId" "imageUrl" t = true)
               (titles_of page)) ->
    forall fuel authorization accountId offset psGames s c s',
      Forall (fun g => normalized_shape g = true) psGames ->
      while_hasNextPage fuel authorization accountId offset psGames up s
        = (c, s') ->
      sent s' = sent s
      /\ forall psGames',
          c = Normal psGames' ->
          Forall (fun g => normalized_shape g = true) psGames'.
Proof.
  intros up Hup.
  induction fuel as [| fuel IH];
    intros authorization accountId offset psGames s c s' Hshape Hrun.
  - inversion Hrun; subst. split; [reflexivity | intros ? H; discriminate H].
  - rewrite while_unfold in Hrun. unfold bind at 1, psn_call in Hrun.
    destruct (psn up (List.length (calls s))
                  (GetUserPlayedGames authorization accountId 100 offset))
      as [| [page |]] eqn:Hpsn.
    + inversion Hrun; subst. split; [reflexivity | intros ? H; discriminate H].
    + specialize (Hup _ _ _ Hpsn).
      destruct page as [| b | n | t | items | fs];
        try (inversion Hrun; subst;
             split; [reflexivity | intros ? H; discriminate H]).
      unfold titles_of in Hup. simpl prop in Hup.
      unfold bind, lift in Hrun. rewrite !get_object in Hrun.
      destruct (field "titles" fs) as [[| | | | titles |] |] eqn:Htitles;
        try (inversion Hrun; subst;
             split; [reflexivity | intros ? H; discriminate H]).
      cbn in Hrun. unfold ret at 1 in Hrun.
      destruct (each_title psGames titles up
                  (mkState
                     (calls s ++
                      [Psn (GetUserPlayedGames authorization accountId 100
                                               offset)])
                     (logged s) (sent s)))
        as [c1 s1] eqn:Heach.
      destruct (each_title_shape _ _ _ _ _ _ Hup Hshape Heach)
        as [-> Hshape1].
      destruct c1 as [psGames1 | e | |];
        try (inversion Hrun; subst;
             split; [reflexivity | intros ? H; discriminate H]).
      specialize (Hshape1 psGames1 eq_refl).
      destruct (negb (negb (truthy (field "nextOffset" fs))
                      || is_number (field "nextOffset" fs) 0)).
      * apply IH in Hrun; [exact Hrun | exact Hshape1].
      * inversion Hrun; subst. split; [reflexivity |].
        intros ? H. inversion H; subst. exact Hshape1.
    + inversion Hrun; subst. split; [reflexivity | intros ? H; discriminate H].
Qed.

Lemma fetchPSGames_shape :
  forall up key req fuel r,
    (forall n c page,
        psn up n c = Resolved (Some page) ->
        Forall (fun t => clean_record "titleId" "imageUrl" t = true)
               (titles_of page)) ->
    sent (snd (handle (fetchPSGames fuel key req) up)) = Some r ->
    status r = 200 ->
    Forall (fun g => normalized_shape g = true) (response_games r).
Proof.
  intros up key req fuel r Hup.
  unfold fetchPSGames. unfold_js.
  explore.
  all: try (intros H Hs; inversion H; subst; simpl in Hs; discriminate Hs).
  all: match goal with
       | Hrun : while_hasNextPage _ _ _ _ _ _ _ = _ |- _ =>
           apply (while_shape up Hup) in Hrun; [| constructor];
           destruct Hrun as [Hsent Hshape]
       end.
  - intros H _. inversion H; subst. apply Hshape. reflexivity.
  - intros H. rewrite Hsent in H. discriminate H.
  - intros H. rewrite Hsent in H. discriminate H.
Qed.

Lemma gameInfo_run :
  forall title up s,
    title <> JNull ->
    gameInfo title up s = (Normal (xbox_normalized title), s).
Proof.
  intros title up s Htitle. destruct title; try reflexivity. contradiction.
Qed.

Lemma map_items_gameInfo_cases :
  forall titles up s,
    map_items gameInfo titles up s = (Normal (map xbox_normalized titles), s)
    \/ map_items gameInfo titles up s = (Throw TypeError, s).
Proof.
  induction titles as [| title rest IH]; intros up s.
  - left. reflexivity.
  - simpl. unfold bind.
    destruct title; try (right; reflexivity);
      (rewrite gameInfo_run by discriminate;
       destruct (IH up s) as [-> | ->]; [left | right]; reflexivity).
Qed.

Lemma array_map_gameInfo_cases :
  forall v up s,
    (exists titles,
        v = Some (JArr titles)
        /\ array_map gameInfo v up s
           = (Normal (map xbox_normalized titles), s))
    \/ array_map gameInfo v up s = (Throw TypeError, s).
Proof.
  intros [[| b | n | t | items | fs] |] up s; try (right; reflexivity).
  destruct (map_items_gameInfo_cases items up s) as [H | H].
  - left. exists items. auto.
  - right. exact H.
Qed.

Lemma falsy_or_list :
  forall v titles,
    falsy_or v (Some (JArr [])) = Some (JArr titles) ->
    v = Some (JArr titles) \/ titles = [].
Proof.
  intros v titles H. unfold falsy_or in H.
  destruct (truthy v); [left; exact H | right].
  inversion H. reflexivity.
Qed.

Lemma get_list_titles :
  forall data titles,
    get (Some data) "titles" = inr (Some (JArr titles)) ->
    titles_of data = titles.
Proof.
  intros data titles H. apply get_some_inv in H.
  destruct H as (fs & Hdata & Hfield). inversion Hdata; subst.
  unfold titles_of. simpl. rewrite Hfield. reflexivity.
Qed.

Lemma not_ok_200 :
  forall reply, negb (ok reply) = true -> reply_status reply <> 200.
Proof.
  intros reply Hok Hstatus. unfold ok in Hok. rewrite Hstatus in Hok.
  discriminate Hok.
Qed.

Lemma fetchXboxGames_shape :
  forall up key req r,
    (forall n url headers reply data,
        http up n url headers = Resolved reply ->
        reply_body reply = Some data ->
        Forall (fun t => clean_record "titleId" "displayImage" t = true)
               (titles_of data)) ->
    sent (snd (handle (fetchXboxGames key req) up)) = Some r ->
    status r = 200 ->
    Forall (fun g => normalized_shape g = true) (response_games r).
Proof.
  intros up key req r Hup.
  unfold fetchXboxGames. unfold_js.
  explore.
  all: try (intros H Hs; inversion H; subst; simpl in Hs;
            first [discriminate Hs
                  | exfalso; eapply not_ok_200; eassumption]).
  all: match goal with
       | Hrun : array_map gameInfo ?v ?u ?s0 = _ |- _ =>
           destruct (array_map_gameInfo_cases v u s0)
             as [(titles & Htitles & Hmap) | Hthrow];
           [rewrite Hmap in Hrun | rewrite Hthrow in Hrun];
           inversion Hrun; subst; try discriminate
       end.
  intros H _. inversion H; subst.
  replace (response_games _) with (map xbox_normalized titles)
    by (unfold response_games;
        match goal with |- context [("total", ?t)] => destruct t end;
        reflexivity).
  apply falsy_or_list in Htitles. destruct Htitles as [-> | ->].
  - match goal with
    | Hget : get (Some ?data) "titles" = inr (Some (JArr titles)),
      Hhttp : http up 1 _ _ = Resolved ?reply,
      Hbody : reply_body ?reply = Some ?data |- _ =>
        specialize (Hup _ _ _ _ _ Hhttp Hbody);
        rewrite (get_list_titles _ _ Hget) in Hup
    end.
    apply Forall_map. eapply Forall_impl; [| exact Hup].
    intros title. apply xbox_normalized_clean.
  - constructor.
Qed.

Lemma fetchSteamGames_shape :
  forall up key req r,
    (forall n url headers reply data,
        http up n url headers = Resolved reply ->
        reply_body reply = Some data ->
        Forall (fun g => nonempty (prop g "appid") = true
                         /\ nonempty (prop g "name") = true)
               (owned_games data)) ->
    sent (snd (handle (fetchSteamGames key req) up)) = Some r ->
    status r = 200 ->
    Forall (fun g => normalized_shape g = true) (response_games r).
Proof.
  intros up key req r Hup.
  unfold fetchSteamGames. unfold_js.
  explore.
  all: try (intros H Hs; inversion H; subst; simpl in Hs;
            first [discriminate Hs
                  | exfalso; eapply not_ok_200; eassumption]).
  all: match goal with
       | Hrun : array_map simplify ?v ?u ?s0 = _ |- _ =>
           destruct (array_map_simplify_cases v u s0)
             as [(games & -> & Hmap) | Hthrow];
           [rewrite Hmap in Hrun | rewrite Hthrow in Hrun];
           inversion Hrun; subst; try discriminate
       end.
  intros H _. inversion H; subst.
  unfold response_games. simpl.
  match goal with
  | Hgames : get ?resp "games" = inr (Some (JArr games)),
    Hresp : get (Some ?data) "response" = inr ?resp,
    Hhttp : http up 1 _ _ = Resolved ?reply,
    Hbody : reply_body ?reply = Some ?data |- _ =>
      specialize (Hup _ _ _ _ _ Hhttp Hbody);
      apply get_some_inv in Hgames;
      destruct Hgames as (fs & -> & Hfield);
      apply get_some_inv in Hresp;
      destruct Hresp as (fs' & Hdata & Hfield');
      inversion Hdata; subst;
      unfold owned_games in Hup; simpl in Hup;
      rewrite Hfield' in Hup; simpl in Hup; rewrite Hfield in Hup
  end.
  apply Forall_map. eapply Forall_impl; [| exact Hup].
  intros game [Hid Hname]. apply appid_and_name_clean; assumption.
Qed.

Ltac explore_all :=
  repeat (cbn;
          match goal with
          | |- context [match ?x with _ => _ end] =>
              lazymatch x with
              | context [match _ with _ => _ end] => fail
              | _ => destruct x eqn:?
              end
          end);
  cbn.

Ltac settle_maps :=
  repeat match goal with
         | Hrun : array_map simplify ?v ?u ?s0 = _ |- _ =>
             let Hmap := fresh "Hmap" in
             let Hthrow := fresh "Hthrow" in
             destruct (array_map_simplify_cases v u s0)
               as [(? & ? & Hmap) | Hthrow];
             [rewrite Hmap in Hrun; clear Hmap
             | rewrite Hthrow in Hrun; clear Hthrow];
             inversion Hrun; subst; clear Hrun
         | Hrun : array_map gameInfo ?v ?u ?s0 = _ |- _ =>
             let Hmap := fresh "Hmap" in
             let Hthrow := fresh "Hthrow" in
             destruct (array_map_gameInfo_cases v u s0)
               as [(? & ? & Hmap) | Hthrow];
             [rewrite Hmap in Hrun; clear Hmap
             | rewrite Hthrow in Hrun; clear Hthrow];
             inversion Hrun; subst; clear Hrun
         end.

Ltac wrong_status :=
  let Hresp := fresh "Hresp" in
  let Hstat := fresh "Hstat" in
  intros Hresp Hstat; inversion Hresp; subst; simpl in Hstat;
  first [discriminate Hstat | exfalso; eapply not_ok_200; eassumption].

(** *** What a 200 response is built from *)

Lemma props_of_object :
  forall appid name logo : value,
    prop (object [("appid", appid); ("name", name); ("logo", logo)]) "appid"
    = appid
    /\ prop (object [("appid", appid); ("name", name); ("logo", logo)]) "name"
       = name
    /\ prop (object [("appid", appid); ("name", name); ("logo", logo)]) "logo"
       = logo.
Proof.
  intros [appid |] [name |] [logo |]; repeat split.
Qed.

Lemma copies_normalized :
  forall title, copies "titleId" "imageUrl" title (normalized title).
Proof. intros title. apply props_of_object. Qed.

Lemma copies_xbox_normalized :
  forall title, copies "titleId" "displayImage" title (xbox_normalized title).
Proof. intros title. apply props_of_object. Qed.

Lemma copies_appid_and_name :
  forall game, copies_without_logo game (appid_and_name game).
Proof.
  intros game. unfold copies_without_logo, appid_and_name.
  destruct (prop game "appid") as [appid |];
    destruct (prop game "name") as [name |]; repeat split.
Qed.

Lemma each_title_exact :
  forall titles psGames up s psGames' s',
    each_title psGames titles up s = (Normal psGames', s') ->
    s' = s
    /\ psGames' = (psGames ++ map normalized (filter accepted titles))%list.
Proof.
  induction titles as [| title rest IH]; intros psGames up s psGames' s' Hrun.
  - inversion Hrun; subst. simpl. rewrite app_nil_r. auto.
  - simpl in Hrun. unfold bind in Hrun.
    assert (Htitle : title <> JNull).
    { intros ->. rewrite keep_title_null in Hrun. discriminate Hrun. }
    rewrite keep_title_run in Hrun by exact Htitle.
    simpl filter. revert Hrun.
    destruct (accepted title); intros Hrun;
      apply IH in Hrun; destruct Hrun as [-> ->];
      (split; [reflexivity |]).
    + simpl. rewrite <- app_assoc. reflexivity.
    + reflexivity.
Qed.

(** The list the loop yields is the list it was entered with followed by
    the kept titles of the pages the upstream returned to its requests. *)
Lemma while_pages :
  forall fuel up authorization accountId offset psGames s psGames' s',
    while_hasNextPage fuel authorization accountId offset psGames up s
      = (Normal psGames', s') ->
    exists requests pages,
      calls s' = (calls s ++ requests)%list
      /\ served up (List.length (calls s)) requests pages
      /\ psGames' = (psGames ++ kept_titles pages)%list.
Proof.
  induction fuel as [| fuel IH];
    intros up authorization accountId offset psGames s psGames' s' Hrun.
  - discriminate Hrun.
  - rewrite while_unfold in Hrun. unfold bind at 1, psn_call in Hrun.
    set (s1 := mkState
                 (calls s ++
                  [Psn (GetUserPlayedGames authorization accountId 100
                                           offset)])
                 (logged s) (sent s)) in Hrun.
    assert (Hs1 : List.length (calls s1) = S (List.length (calls s))).
    { unfold s1. simpl. rewrite length_app, Nat.add_1_r. reflexivity. }
    destruct (psn up (List.length (calls s))
                  (GetUserPlayedGames authorization accountId 100 offset))
      as [| playedGames] eqn:Hpsn; [discriminate Hrun |].
    unfold bind at 1 in Hrun.
    destruct (get playedGames "titles") as [e | titles] eqn:Htitles;
      [discriminate Hrun |].
    cbn in Hrun. unfold bind at 1 in Hrun.
    destruct (forEach_title titles psGames up s1) as [c1 s2] eqn:Heach.
    destruct c1 as [psGames1 | e | |]; try discriminate Hrun.
    destruct titles as [[| b | n | t | items | fs0] |];
      try discriminate Heach.
    apply each_title_exact in Heach. destruct Heach as [-> ->].
    apply get_some_inv in Htitles. destruct Htitles as (fs & -> & Hfield).
    assert (Hof : titles_of (JObj fs) = items).
    { unfold titles_of. simpl. rewrite Hfield. reflexivity. }
    unfold bind at 1 in Hrun. rewrite get_object in Hrun. cbn in Hrun.
    destruct (negb (negb (truthy (field "nextOffset" fs))
                    || is_number (field "nextOffset" fs) 0)).
    + apply IH in Hrun.
      destruct Hrun as (requests & pages & Hcalls & Hserved & ->).
      exists (Psn (GetUserPlayedGames authorization accountId 100 offset)
              :: requests), (JObj fs :: pages).
      split; [| split].
      * rewrite Hcalls. unfold s1. simpl. rewrite <- app_assoc. reflexivity.
      * simpl. split.
        -- exists authorization, accountId, offset. auto.
        -- rewrite <- Hs1. exact Hserved.
      * unfold kept_titles. simpl. rewrite Hof, <- app_assoc. reflexivity.
    + inversion Hrun; subst psGames' s'.
      exists [Psn (GetUserPlayedGames authorization accountId 100 offset)],
             [JObj fs].
      split; [reflexivity |]. split.
      * simpl. split; [| exact I].
        exists authorization, accountId, offset. auto.
      * unfold kept_titles. simpl. rewrite Hof, app_nil_r. reflexivity.
Qed.

Lemma served_in :
  forall up requests pages n page,
    served up n requests pages ->
    In page pages ->
    exists n' c, psn up n' c = Resolved (Some page).
Proof.
  intros up requests. induction requests as [| request rest IH];
    intros [| page' pages] n page Hserved Hin; simpl in *; try contradiction.
  destruct Hserved as [(a & i & o & _ & Hpsn) Hrest].
  destruct Hin as [-> | Hin].
  - eauto.
  - eapply IH; eassumption.
Qed.

Lemma while_frame_sent :
  forall fuel up authorization accountId offset psGames s c s',
    while_hasNextPage fuel authorization accountId offset psGames up s
      = (c, s') ->
    sent s' = sent s.
Proof.
  induction fuel as [| fuel IH];
    intros up authorization accountId offset psGames s c s' Hrun.
  - inversion Hrun; subst. reflexivity.
  - destruct (while_iteration up authorization accountId offset psGames s)
      as [(page & psGames' & _ & _ & Hgo) | (c' & _ & Hstop)].
    + rewrite Hgo in Hrun. apply IH in Hrun. exact Hrun.
    + rewrite Hstop in Hrun. inversion Hrun; subst. reflexivity.
Qed.

(** A 200 response of [fetchPSGames]: after three calls the handler has
    made page requests, and the body holds the kept titles of the pages the
    upstream returned to them. *)
Lemma fetchPSGames_200_pages :
  forall up key req fuel r,
    sent (snd (handle (fetchPSGames fuel key req) up)) = Some r ->
    status r = 200 ->
    exists prefix requests pages,
      calls (snd (handle (fetchPSGames fuel key req) up))
        = (prefix ++ requests)%list
      /\ List.length prefix = 3%nat
      /\ served up 3 requests pages
      /\ body r =
         Json (Some (JObj
           [("total", JNum (Z.of_nat (List.length (kept_titles pages))));
            ("games", JArr (kept_titles pages))])).
Proof.
  intros up key req fuel r.
  unfold fetchPSGames. unfold_js. explore_all.
  all: try wrong_status.
  all: match goal with
       | Hrun : while_hasNextPage _ _ _ _ _ _ _ = (Normal _, _) |- _ =>
           apply while_pages in Hrun;
           destruct Hrun as (requests & pages & Hcalls & Hserved & ->)
       | Hrun : while_hasNextPage _ _ _ _ _ _ _ = _ |- _ =>
           let Hloop := fresh "Hloop" in
           apply while_frame_sent in Hrun; rename Hrun into Hloop
       end.
  - intros Hresp _. inversion Hresp; subst. simpl in Hcalls, Hserved.
    match type of Hcalls with
    | calls _ = ?c0 :: ?c1 :: ?c2 :: _ => exists [c0; c1; c2]
    end.
    exists requests, pages.
    split; [exact Hcalls |]. split; [reflexivity |].
    split; [exact Hserved | reflexivity].
  - intros Hresp. rewrite Hloop in Hresp. discriminate Hresp.
  - intros Hresp. rewrite Hloop in Hresp. discriminate Hresp.
Qed.

Lemma titles_of_falsy_or :
  forall data v titles,
    get (Some data) "titles" = inr v ->
    falsy_or v (Some (JArr [])) = Some (JArr titles) ->
    titles_of data = titles.
Proof.
  intros data v titles Hget Hor.
  assert (Hdata : data <> JNull) by (intros ->; discriminate Hget).
  rewrite get_prop in Hget by exact Hdata. inversion Hget; subst v.
  unfold titles_of. unfold falsy_or in Hor.
  destruct (prop data "titles") as [[| b | n | t | items | fs] |];
    simpl in Hor; try (inversion Hor; reflexivity);
    try (destruct b; inversion Hor; reflexivity);
    try (destruct (negb (n =? 0)); inversion Hor; reflexivity).
  destruct (negb (t =? "")%string); inversion Hor; reflexivity.
Qed.

(** A 200 response of [fetchXboxGames]: the second call was answered with a
    document whose titles, normalized in order, are the games. *)
Lemma fetchXboxGames_200_reply :
  forall up key req r,
    sent (snd (handle (fetchXboxGames key req) up)) = Some r ->
    status r = 200 ->
    exists first_call url headers reply data,
      calls (snd (handle (fetchXboxGames key req) up))
        = [first_call; Fetch url headers]
      /\ http up 1 url headers = Resolved reply
      /\ reply_body reply = Some data
      /\ body r =
         Json (Some (JObj
           [("games", JArr (map xbox_normalized (titles_of data)));
            ("total", JNum (Z.of_nat (List.length (titles_of data))))])).
Proof.
  intros up key req r.
  unfold fetchXboxGames. unfold_js. explore_all.
  all: settle_maps.
  all: try wrong_status.
  intros Hresp _. inversion Hresp; subst.
  match goal with
  | Hval : falsy_or ?v _ = Some (JArr ?titles),
    Hlen : get_length (falsy_or ?v _) = inr _,
    Hget : get (Some ?data) "titles" = inr ?v,
    Hhttp : http up 1 _ _ = Resolved ?reply,
    Hbody : reply_body ?reply = Some ?data |- _ =>
      rewrite Hval in Hlen; inversion Hlen; subst;
      rewrite <- (titles_of_falsy_or _ _ _ Hget Hval);
      do 3 eexists; exists reply, data;
      split; [reflexivity |];
      split; [exact Hhttp |];
      split; [exact Hbody | reflexivity]
  end.
Qed.

(** A 200 response of [fetchSteamGames]: the second call was answered with
    an owned-games document whose records, cut down in order, are the
    games. *)
Lemma fetchSteamGames_200_reply :
  forall up key req r,
    sent (snd (handle (fetchSteamGames key req) up)) = Some r ->
    status r = 200 ->
    exists first_call url reply gamesData,
      calls (snd (handle (fetchSteamGames key req) up))
        = [first_call; Fetch url []]
      /\ http up 1 url [] = Resolved reply
      /\ reply_body reply = Some gamesData
      /\ body r =
         Json (Some (JObj
           [("games", JArr (map appid_and_name (owned_games gamesData)))])).
Proof.
  intros up key req r.
  unfold fetchSteamGames. unfold_js. explore_all.
  all: settle_maps.
  all: try wrong_status.
  intros Hresp _. inversion Hresp; subst.
  match goal with
  | Hgames : get ?resp "games" = inr (Some (JArr ?games)),
    Hresponse : get (Some ?data) "response" = inr ?resp,
    Hhttp : http up 1 _ _ = Resolved ?reply,
    Hbody : reply_body ?reply = Some ?data |- _ =>
      apply get_some_inv in Hgames;
      destruct Hgames as (fs & -> & Hfield);
      apply get_some_inv in Hresponse;
      destruct Hresponse as (fs' & Hdata & Hfield');
      inversion Hdata; subst;
      assert (Howned : owned_games (JObj fs') = games)
        by (unfold owned_games; simpl; rewrite Hfield'; simpl;
            rewrite Hfield; reflexivity);
      rewrite <- Howned;
      do 2 eexists; exists reply, (JObj fs');
      split; [reflexivity |];
      split; [exact Hhttp |];
      split; [exact Hbody | reflexivity]
  end.
Qed.

(** C5, amended.  Every game of a 200 response of [fetchPSGames],
    [fetchXboxGames] and [fetchSteamGames] is built from a record the
    upstream served (a title of a page it returned, a title of the
    title-history reply, a game of the owned-games reply) and carries the
    identifier, the name and the image of that record as [appid], [name] and
    [logo] (no [logo] for Steam), unchanged and unchecked.  So the game has
    a non-empty [appid] and [name] and a [logo] that is absent or a
    non-empty string whenever its record has a non-empty identifier and
    name and an image that is absent or a non-empty string. *)
Theorem normalized_games_copy_upstream :
  forall (up : Upstream) (key : string) (req : Request) (fuel : nat),
    (forall r,
        sent (snd (handle (fetchPSGames fuel key req) up)) = Some r ->
        status r = 200 ->
        Forall (fun g =>
                  exists n c page title,
                    psn up n c = Resolved (Some page)
                    /\ In title (titles_of page)
                    /\ copies "titleId" "imageUrl" title g
                    /\ (clean_record "titleId" "imageUrl" title = true ->
                        normalized_shape g = true))
               (response_games r))
    /\ (forall r,
          sent (snd (handle (fetchXboxGames key req) up)) = Some r ->
          status r = 200 ->
          Forall (fun g =>
                    exists url headers reply data title,
                      http up 1 url headers = Resolved reply
                      /\ reply_body reply = Some data
                      /\ In title (titles_of data)
                      /\ copies "titleId" "displayImage" title g
                      /\ (clean_record "titleId" "displayImage" title = true ->
                          normalized_shape g = true))
                 (response_games r))
    /\ (forall r,
          sent (snd (handle (fetchSteamGames key req) up)) = Some r ->
          status r = 200 ->
          Forall (fun g =>
                    exists url reply gamesData game,
                      http up 1 url [] = Resolved reply
                      /\ reply_body reply = Some gamesData
                      /\ In game (owned_games gamesData)
                      /\ copies_without_logo game g
                      /\ (nonempty (prop game "appid") = true ->
                          nonempty (prop game "name") = true ->
                          normalized_shape g = true))
                 (response_games r)).
Proof.
  intros up key req fuel.
  split; [| split]; intros r Hsent Hstatus.
  - destruct (fetchPSGames_200_pages up key req fuel r Hsent Hstatus)
      as (prefix & requests & pages & _ & _ & Hserved & Hbody).
    unfold response_games. rewrite Hbody. simpl.
    apply Forall_forall. intros g Hin.
    apply in_kept_titles in Hin.
    destruct Hin as (page & title & Hpage & Htitle & _ & ->).
    destruct (served_in _ _ _ _ _ Hserved Hpage) as (n & c & Hpsn).
    exists n, c, page, title.
    split; [exact Hpsn |]. split; [exact Htitle |].
    split; [apply copies_normalized | apply normalized_clean].
  - destruct (fetchXboxGames_200_reply up key req r Hsent Hstatus)
      as (first_call & url & headers & reply & data & _ & Hhttp & Hreply
          & Hbody).
    unfold response_games. rewrite Hbody. simpl.
    apply Forall_forall. intros g Hin.
    apply in_map_iff in Hin. destruct Hin as (title & <- & Hin).
    exists url, headers, reply, data, title.
    split; [exact Hhttp |]. split; [exact Hreply |]. split; [exact Hin |].
    split; [apply copies_xbox_normalized | apply xbox_normalized_clean].
  - destruct (fetchSteamGames_200_reply up key req r Hsent Hstatus)
      as (first_call & url & reply & gamesData & _ & Hhttp & Hreply & Hbody).
    unfold response_games. rewrite Hbody. simpl.
    apply Forall_forall. intros g Hin.
    apply in_map_iff in Hin. destruct Hin as (game & <- & Hin).
    exists url, reply, gamesData, game.
    split; [exact Hhttp |]. split; [exact Hreply |]. split; [exact Hin |].
    split; [apply copies_appid_and_name | apply appid_and_name_clean].
Qed.

(** ** The theorems at concrete requests *)

Lemma fetchSuggestions_returns_results_witness :
  exists results,
    sent (snd (handle (fetchSuggestions "KEY" example_rawg_request)
                      example_rawg))
      = Some (mkResponse 200 (Json (Some (JArr results))))
    /\ List.length results = 2%nat.
Proof.
  eexists. split.
  - destruct (fetchSuggestions_returns_results
                example_rawg "KEY" example_rawg_request _ _ _ _
                eq_refl eq_refl eq_refl eq_refl eq_refl eq_refl) as [H _].
    rewrite H. reflexivity.
  - reflexivity.
Defined.

Lemma missing_parameter_witness :
  handle (fetchSuggestions "KEY" empty_request) example_rawg =
    (Return,
     mkState [] [] (Some (mkResponse 400 (Text "Missing search query"))))
  /\ exists rest,
       calls (snd (handle (fetchXboxGames "KEY" empty_request) xbox_nobody)) =
         Fetch "https://xbl.io/api/v2/search/undefined"
               [("X-Authorization", "KEY")] :: rest.
Proof.
  split.
  - apply (missing_parameter example_rawg "KEY" 0 empty_request empty_request
             empty_request empty_request eq_refl eq_refl eq_refl).
  - apply (missing_parameter xbox_nobody "KEY" 0 empty_request empty_request
             empty_request empty_request eq_refl eq_refl eq_refl).
Defined.

Lemma fetchSteamGames_user_not_found_witness :
  sent (snd (handle (fetchSteamGames "KEY" example_steam_request)
                    steam_no_match))
    = Some (mkResponse 404 (Text "Steam user not found"))
  /\ List.length
       (calls (snd (handle (fetchSteamGames "KEY" example_steam_request)
                           steam_no_match))) = 1%nat.
Proof.
  assert (H42 : Some (JNum 42) <> Some (JNum 1)) by discriminate.
  rewrite (fetchSteamGames_user_not_found
             steam_no_match "KEY" example_steam_request _ _ _ _ _
             eq_refl eq_refl eq_refl eq_refl eq_refl eq_refl eq_refl H42).
  split; reflexivity.
Defined.

Lemma fetchSteamGames_simplifies_witness :
  exists simplifiedGames,
    Forall2 simplified (owned_games example_owned_games) simplifiedGames
    /\ sent (snd (handle (fetchSteamGames "KEY" example_steam_request)
                         example_steam))
       = Some (mkResponse 200
           (Json (Some (JObj [("games", JArr simplifiedGames)])))).
Proof.
  assert (Hrecords :
    Forall (fun g => exists appid name, game_record g appid name)
           (owned_games example_owned_games)).
  { repeat constructor; do 3 eexists; repeat split; reflexivity. }
  destruct (fetchSteamGames_simplifies
              example_steam "KEY" example_steam_request _ _ _ _ _ _ _ _
              eq_refl eq_refl eq_refl eq_refl eq_refl eq_refl eq_refl
              eq_refl eq_refl eq_refl eq_refl eq_refl Hrecords)
    as (simplifiedGames & Hall & Hrun).
  exists simplifiedGames.
  split; [exact Hall | rewrite Hrun; reflexivity].
Defined.

Lemma fetchSteamGames_versions_related_witness :
  exists response games,
    prop example_owned_games "response" = Some (JObj response)
    /\ field "games" response = Some (JArr games)
    /\ sent (snd (handle (IndexTs.fetchSteamGames "KEY" example_steam_request)
                         example_steam))
       = Some (mkResponse 200 (Json (prop example_owned_games "response")))
    /\ sent (snd (handle (fetchSteamGames "KEY" example_steam_request)
                         example_steam))
       = Some (mkResponse 200
           (Json (Some (JObj [("games", JArr (map appid_and_name games))])))).
Proof.
  destruct (fetchSteamGames_versions_related
              example_steam "KEY" example_steam_request _ _ eq_refl eq_refl)
    as (_ & first_call & url & reply & gamesData & response & games
        & _ & Hhttp & Hreply & Hprop & Hold & Hfield & Hnew).
  simpl in Hhttp. inversion Hhttp; subst reply.
  simpl in Hreply. inversion Hreply; subst gamesData.
  exists response, games.
  split; [exact Hprop |]. split; [exact Hfield |].
  split; [rewrite <- Hold | rewrite <- Hnew]; reflexivity.
Defined.

Lemma fetchXboxGames_empty_people_witness :
  handle (fetchXboxGames "KEY" example_xbox_request) xbox_nobody =
    (Normal tt,
     mkState
       [Fetch "https://xbl.io/api/v2/search/MajorNelson"
              [("X-Authorization", "KEY")]]
       [("Error fetching Xbox games:", TypeError)]
       (Some (mkResponse 500 (Text "Failed to fetch Xbox games")))).
Proof.
  apply (fetchXboxGames_empty_people
           xbox_nobody "KEY" example_xbox_request _ _
           eq_refl eq_refl eq_refl eq_refl).
Defined.

Lemma fetchPSGames_keeps_native_titles_witness :
  sent (snd (handle (fetchPSGames 2 "NPSSO" example_psn_request) example_psn))
    = Some (mkResponse 200
        (Json (Some (JObj
           [("total", JNum 3);
            ("games",
             JArr [JObj [("appid", JStr "PPSA01"); ("name", JStr "Astro");
                         ("logo", JStr "https://image/astro.png")];
                   JObj [("appid", JStr "PPSA02"); ("name", JStr "Returnal")];
                   JObj [("appid", JStr "CUSA01"); ("name", JStr "Bloodborne");
                         ("logo", JStr "https://image/bb.png")]])])))).
Proof.
  assert (Hwf : Forall well_formed_page [example_page_1; example_page_2]).
  { repeat constructor; eexists; (split; [reflexivity |]);
      repeat constructor; discriminate. }
  assert (Hans : answered example_psn
                   (Some (JObj [("accessToken", JStr "token")]))
                   (Some (JStr "42")) 3 (Some (JNum 0))
                   [example_page_1; example_page_2]).
  { repeat split. }
  assert (Hdrained : drained [example_page_1; example_page_2]).
  { split; reflexivity. }
  assert (Hfuel : (List.length [example_page_1; example_page_2] <= 2)%nat).
  { simpl. lia. }
  destruct (fetchPSGames_keeps_native_titles
              example_psn "NPSSO" example_psn_request _ _ _ _ _ _ 2
              eq_refl eq_refl eq_refl eq_refl eq_refl eq_refl
              Hans Hdrained Hwf Hfuel) as [Hrun _].
  rewrite Hrun. reflexivity.
Defined.

Lemma pagination_terminates_witness :
  exists c s',
    c <> Diverge
    /\ forall fuel,
        (2 <= fuel)%nat ->
        while_hasNextPage fuel (Some (JObj [("accessToken", JStr "token")]))
                          (Some (JStr "42")) (Some (JNum 0)) [] example_psn
                          (mkState
                             [Psn (ExchangeNpssoForAccessCode "NPSSO");
                              Psn (ExchangeNpssoForAccessCode "NPSSO");
                              Psn (ExchangeNpssoForAccessCode "NPSSO")]
                             [] None)
        = (c, s').
Proof.
  assert (Hans : answered example_psn
                   (Some (JObj [("accessToken", JStr "token")]))
                   (Some (JStr "42")) 3 (Some (JNum 0))
                   ([example_page_1] ++ [example_page_2])).
  { repeat split. }
  assert (Hlast : prop example_page_2 "nextOffset" = None
                  \/ prop example_page_2 "nextOffset" = Some (JNum 0)).
  { right. reflexivity. }
  apply (pagination_terminates
           [example_page_1] example_page_2 example_psn
           (Some (JObj [("accessToken", JStr "token")])) (Some (JStr "42"))
           (Some (JNum 0)) []
           (mkState
              [Psn (ExchangeNpssoForAccessCode "NPSSO");
               Psn (ExchangeNpssoForAccessCode "NPSSO");
               Psn (ExchangeNpssoForAccessCode "NPSSO")]
              [] None)
           Hans Hlast).
Defined.

Lemma fetchPSGames_first_account_witness :
  (exists more,
      calls (snd (handle (fetchPSGames 1 "NPSSO" example_psn_request)
                         example_psn)) =
        ([Psn (ExchangeNpssoForAccessCode "NPSSO");
          Psn (ExchangeAccessCodeForAuthTokens (Some (JStr "access-code")));
          Psn (MakeUniversalSearch
                 (Some (JObj [("accessToken", JStr "token")]))
                 (Some (JStr "player")) "SocialAllAccounts");
          Psn (GetUserPlayedGames
                 (Some (JObj [("accessToken", JStr "token")]))
                 (Some (JStr "42")) 100 (Some (JNum 0)))] ++ more)%list)
  /\ sent (snd (handle (fetchPSGames 1 "NPSSO" example_psn_request)
                       psn_no_account))
     = Some (mkResponse 500 (Text "Failed to fetch PS games")).
Proof.
  split.
  - destruct (fetchPSGames_first_account
                example_psn "NPSSO" example_psn_request _ _ _ _ _
                eq_refl eq_refl eq_refl eq_refl eq_refl eq_refl)
      as [Hfirst _].
    destruct (Hfirst _ _ [("accountId", JStr "42")] 0%nat eq_refl eq_refl)
      as (more & Hcalls & _).
    exists more. exact Hcalls.
  - destruct (fetchPSGames_first_account
                psn_no_account "NPSSO" example_psn_request _ _ _ _ _
                eq_refl eq_refl eq_refl eq_refl eq_refl eq_refl)
      as [_ Hnone].
    rewrite (Hnone eq_refl 1%nat). reflexivity.
Defined.

Lemma normalized_games_copy_upstream_witness :
  exists r,
    sent (snd (handle (fetchPSGames 2 "NPSSO" example_psn_request)
                      example_psn)) = Some r
    /\ List.length (response_games r) = 3%nat
    /\ Forall (fun g =>
                 exists n c page title,
                   psn example_psn n c = Resolved (Some page)
                   /\ In title (titles_of page)
                   /\ copies "titleId" "imageUrl" title g
                   /\ (clean_record "titleId" "imageUrl" title = true ->
                       normalized_shape g = true))
              (response_games r).
Proof.
  eexists. split; [vm_compute; reflexivity |].
  split; [reflexivity |].
  destruct (normalized_games_copy_upstream
              example_psn "NPSSO" example_psn_request 2) as [Hps _].
  apply Hps.
  - vm_compute. reflexivity.
  - reflexivity.
Defined.

(** * Further properties of the handlers *)

(** ** The call log of the remaining building blocks *)

Lemma grows_simplify : forall game, grows (simplify game).
Proof. intros game. unfold simplify. grows. Qed.

Lemma grows_while :
  forall fuel authorization accountId offset psGames,
    grows (while_hasNextPage fuel authorization accountId offset psGames).
Proof.
  intros fuel authorization accountId offset psGames up s.
  destruct (while_calls fuel up authorization accountId offset psGames s)
    as (more & Hcalls & _).
  exists more. exact Hcalls.
Qed.

#[export] Hint Resolve grows_simplify grows_while : grows.

(** What a handler that starts with a psn-api call has called first. *)
Lemma first_call_is_psn :
  forall A c (k : value -> M A) (h : Error -> M A) up,
    (forall v, grows (k v)) ->
    (forall e, grows (h e)) ->
    exists rest,
      calls (snd (try_catch (bind (psn_call c) k) h up start)) = Psn c :: rest.
Proof.
  intros A c k h up Hk Hh.
  unfold try_catch, bind, psn_call, start. simpl.
  destruct (psn up 0 c) as [| v].
  - destruct (Hh NetworkError up (mkState [Psn c] [] None)) as [rest Hrest].
    exists rest. rewrite Hrest. reflexivity.
  - destruct (Hk v up (mkState [Psn c] [] None)) as [rest Hrest].
    destruct (k v up (mkState [Psn c] [] None))
      as [[a | e | |] s'] eqn:Hrun; simpl in *; eauto.
    destruct (Hh e up s') as [rest' Hrest'].
    exists (rest ++ rest')%list. rewrite Hrest', Hrest. reflexivity.
Qed.

(** ** Validation of the query parameter *)

(** A falsy parameter (absent, or the empty string of [?query=]) ends the
    three validating handlers with 400 before any outbound call; with a
    truthy parameter each of them makes its first outbound call, whatever the
    upstream answers. *)
Theorem validation_decides_first_call :
  forall (up : Upstream) (key : string) (fuel : nat) (req : Request),
    (if truthy (field "query" (query req)) then
       exists rest,
         calls (snd (handle (fetchSuggestions key req) up)) =
           Fetch (rawg_search_url key
                    (to_string (field "query" (query req)))) [] :: rest
     else
       handle (fetchSuggestions key req) up =
         (Return,
          mkState [] [] (Some (mkResponse 400 (Text "Missing search query")))))
    /\ (if truthy (field "vanityurl" (query req)) then
          exists rest,
            calls (snd (handle (fetchSteamGames key req) up)) =
              Fetch (steam_vanity_url key
                       (to_string (field "vanityurl" (query req)))) []
              :: rest
        else
          handle (fetchSteamGames key req) up =
            (Return,
             mkState [] []
               (Some (mkResponse 400 (Text "Missing Steam vanity URL")))))
    /\ (if truthy (field "username" (query req)) then
          exists rest,
            calls (snd (handle (fetchPSGames fuel key req) up)) =
              Psn (ExchangeNpssoForAccessCode key) :: rest
        else
          handle (fetchPSGames fuel key req) up =
            (Return,
             mkState [] []
               (Some (mkResponse 400 (Text "Missing PSN username"))))).
Proof.
  intros up key fuel req.
  split; [| split].
  - unfold fetchSuggestions.
    destruct (truthy (field "query" (query req))); [| reflexivity].
    cbn [negb]. unfold handle.
    apply first_call_is_fetch; [intros response | intros e]; grows.
  - unfold fetchSteamGames.
    destruct (truthy (field "vanityurl" (query req))); [| reflexivity].
    cbn [negb]. unfold handle.
    apply first_call_is_fetch; [intros response | intros e]; grows.
  - unfold fetchPSGames.
    destruct (truthy (field "username" (query req))); [| reflexivity].
    cbn [negb]. unfold handle.
    apply first_call_is_psn; [intros accessCode | intros e]; grows.
Qed.

(** ** Upstream statuses that are passed through *)

(** A search reply whose status is not a success status ends
    [fetchSuggestions] with that very status and the fixed text; nothing is
    logged and the body of the reply is not read. *)
Theorem fetchSuggestions_passes_status :
  forall (up : Upstream) (key : string) (req : Request) (reply : HttpReply),
    truthy (field "query" (query req)) = true ->
    http up 0 (rawg_search_url key (to_string (field "query" (query req)))) []
      = Resolved reply ->
    ok reply = false ->
    handle (fetchSuggestions key req) up =
      (Return,
       mkState
         [Fetch (rawg_search_url key
                   (to_string (field "query" (query req)))) []]
         []
         (Some (mkResponse (reply_status reply)
                           (Text "Failed to fetch game suggestions")))).
Proof.
  intros up key req reply Htruthy Hhttp Hok.
  unfold fetchSuggestions. rewrite Htruthy.
  run_js. reflexivity.
Qed.

(** [fetchSteamGames] passes the status of a failed vanity lookup through
    with the text of the first hop and makes no second call; after a
    successful lookup it passes the status of a failed owned-games call
    through with the text of the second hop. *)
Theorem fetchSteamGames_passes_status :
  forall (up : Upstream) (key : string) (req : Request),
    truthy (field "vanityurl" (query req)) = true ->
    (forall reply,
        http up 0 (steam_vanity_url key
                     (to_string (field "vanityurl" (query req)))) []
          = Resolved reply ->
        ok reply = false ->
        handle (fetchSteamGames key req) up =
          (Return,
           mkState
             [Fetch (steam_vanity_url key
                       (to_string (field "vanityurl" (query req)))) []]
             []
             (Some (mkResponse (reply_status reply)
                               (Text "Failed to fetch Steam user")))))
    /\ (forall reply1 data data_response success steamID reply2,
          http up 0 (steam_vanity_url key
                       (to_string (field "vanityurl" (query req)))) []
            = Resolved reply1 ->
          ok reply1 = true ->
          reply_body reply1 = Some data ->
          get (Some data) "response" = inr data_response ->
          get data_response "success" = inr success ->
          is_number success 1 = true ->
          get data_response "steamid" = inr steamID ->
          http up 1 (steam_games_url key (to_string steamID)) []
            = Resolved reply2 ->
          ok reply2 = false ->
          handle (fetchSteamGames key req) up =
            (Return,
             mkState
               [Fetch (steam_vanity_url key
                         (to_string (field "vanityurl" (query req)))) [];
                Fetch (steam_games_url key (to_string steamID)) []]
               []
               (Some (mkResponse (reply_status reply2)
                                 (Text "Failed to fetch Steam games"))))).
Proof.
  intros up key req Htruthy. split.
  - intros reply Hhttp Hok.
    unfold fetchSteamGames. rewrite Htruthy.
    run_js. reflexivity.
  - intros reply1 data data_response success steamID reply2
           Hhttp1 Hok1 Hbody1 Hresp Hsucc Hone Hid Hhttp2 Hok2.
    unfold fetchSteamGames. rewrite Htruthy.
    run_js. reflexivity.
Qed.

(** [fetchXboxGames] passes the status of a failed gamertag search through
    and makes no second call; after a search that yields an identifier it
    passes the status of a failed title-history call through.  The second
    call carries the trimmed identifier and asks for [en-US]. *)
Theorem fetchXboxGames_passes_status :
  forall (up : Upstream) (key : string) (req : Request),
    (forall reply,
        http up 0 (xbox_search_url
                     (to_string (field "username" (query req))))
             [("X-Authorization", key)] = Resolved reply ->
        ok reply = false ->
        handle (fetchXboxGames key req) up =
          (Return,
           mkState
             [Fetch (xbox_search_url
                       (to_string (field "username" (query req))))
                    [("X-Authorization", key)]]
             []
             (Some (mkResponse (reply_status reply)
                               (Text "Failed to fetch Xbox XUID")))))
    /\ (forall reply1 xuidData people person xuid reply2,
          http up 0 (xbox_search_url
                       (to_string (field "username" (query req))))
               [("X-Authorization", key)] = Resolved reply1 ->
          ok reply1 = true ->
          reply_body reply1 = Some xuidData ->
          get (Some xuidData) "people" = inr people ->
          first people = inr person ->
          get person "xuid" = inr xuid ->
          trim (to_string xuid) <> "" ->
          http up 1 (xbox_history_url (trim (to_string xuid)))
               [("X-Authorization", key); ("Accept-Language", "en-US")]
            = Resolved reply2 ->
          ok reply2 = false ->
          handle (fetchXboxGames key req) up =
            (Return,
             mkState
               [Fetch (xbox_search_url
                         (to_string (field "username" (query req))))
                      [("X-Authorization", key)];
                Fetch (xbox_history_url (trim (to_string xuid)))
                      [("X-Authorization", key);
                       ("Accept-Language", "en-US")]]
               []
               (Some (mkResponse (reply_status reply2)
                        (Text "Failed to fetch Xbox games, resp not ok"))))).
Proof.
  intros up key req. split.
  - intros reply Hhttp Hok.
    unfold fetchXboxGames.
    run_js. reflexivity.
  - intros reply1 xuidData people person xuid reply2
           Hhttp1 Hok1 Hbody1 Hpeople Hperson Hxuid Hid Hhttp2 Hok2.
    apply String.eqb_neq in Hid.
    unfold fetchXboxGames.
    run_js. rewrite Hid. run_js. reflexivity.
Qed.

(** ** Failures of the transport *)

(** When the upstream rejects the first outbound call, each handler logs the
    rejection under its own message and answers its generic 500; it makes no
    further call. *)
Theorem rejected_first_call_is_500 :
  forall (up : Upstream) (key : string) (req : Request) (fuel : nat),
    (forall url headers, http up 0 url headers = Rejected) ->
    (forall c, psn up 0 c = Rejected) ->
    truthy (field "query" (query req)) = true ->
    truthy (field "vanityurl" (query req)) = true ->
    truthy (field "username" (query req)) = true ->
    handle (fetchSuggestions key req) up =
      (Normal tt,
       mkState
         [Fetch (rawg_search_url key
                   (to_string (field "query" (query req)))) []]
         [("API fetch failed:", NetworkError)]
         (Some (mkResponse 500 (Text "Failed to fetch game suggestions"))))
    /\ handle (fetchSteamGames key req) up =
      (Normal tt,
       mkState
         [Fetch (steam_vanity_url key
                   (to_string (field "vanityurl" (query req)))) []]
         [("API fetch failed:", NetworkError)]
         (Some (mkResponse 500 (Text "Failed to fetch Steam games"))))
    /\ handle (fetchPSGames fuel key req) up =
      (Normal tt,
       mkState
         [Psn (ExchangeNpssoForAccessCode key)]
         [("Error fetching PS games:", NetworkError)]
         (Some (mkResponse 500 (Text "Failed to fetch PS games"))))
    /\ handle (fetchXboxGames key req) up =
      (Normal tt,
       mkState
         [Fetch (xbox_search_url (to_string (field "username" (query req))))
                [("X-Authorization", key)]]
         [("Error fetching Xbox games:", NetworkError)]
         (Some (mkResponse 500 (Text "Failed to fetch Xbox games")))).
Proof.
  intros up key req fuel Hhttp Hpsn Hq Hv Hu.
  repeat split.
  - unfold fetchSuggestions. rewrite Hq. unfold_js. cbn.
    rewrite Hhttp. reflexivity.
  - unfold fetchSteamGames. rewrite Hv. unfold_js. cbn.
    rewrite Hhttp. reflexivity.
  - unfold fetchPSGames. rewrite Hu. unfold_js. cbn.
    rewrite Hpsn. reflexivity.
  - unfold fetchXboxGames. unfold_js. cbn.
    rewrite Hhttp. reflexivity.
Qed.

(** A success reply whose body is not JSON makes [response.json()] throw a
    [SyntaxError]; one whose body is the document [null] makes the first
    property read throw a [TypeError].  Either way the handler logs the error
    and answers its generic 500 after that one call. *)
Theorem unreadable_body_is_500 :
  forall (up : Upstream) (key : string) (req : Request) (reply : HttpReply),
    (forall url headers, http up 0 url headers = Resolved reply) ->
    ok reply = true ->
    reply_body reply = None \/ reply_body reply = Some JNull ->
    truthy (field "query" (query req)) = true ->
    truthy (field "vanityurl" (query req)) = true ->
    handle (fetchSuggestions key req) up =
      (Normal tt,
       mkState
         [Fetch (rawg_search_url key
                   (to_string (field "query" (query req)))) []]
         [("API fetch failed:", body_error reply)]
         (Some (mkResponse 500 (Text "Failed to fetch game suggestions"))))
    /\ handle (fetchSteamGames key req) up =
      (Normal tt,
       mkState
         [Fetch (steam_vanity_url key
                   (to_string (field "vanityurl" (query req)))) []]
         [("API fetch failed:", body_error reply)]
         (Some (mkResponse 500 (Text "Failed to fetch Steam games"))))
    /\ handle (fetchXboxGames key req) up =
      (Normal tt,
       mkState
         [Fetch (xbox_search_url (to_string (field "username" (query req))))
                [("X-Authorization", key)]]
         [("Error fetching Xbox games:", body_error reply)]
         (Some (mkResponse 500 (Text "Failed to fetch Xbox games")))).
Proof.
  intros up key req reply Hhttp Hok Hbody Hq Hv.
  unfold body_error.
  repeat split.
  - unfold fetchSuggestions. rewrite Hq. unfold_js. cbn.
    rewrite Hhttp, Hok. cbn.
    destruct Hbody as [-> | ->]; reflexivity.
  - unfold fetchSteamGames. rewrite Hv. unfold_js. cbn.
    rewrite Hhttp, Hok. cbn.
    destruct Hbody as [-> | ->]; reflexivity.
  - unfold fetchXboxGames. unfold_js. cbn.
    rewrite Hhttp, Hok. cbn.
    destruct Hbody as [-> | ->]; reflexivity.
Qed.

(** ** fetchXboxGames: the identifier and the title history *)

Lemma map_items_gameInfo :
  forall titles up s,
    Forall (fun title => title <> JNull) titles ->
    map_items gameInfo titles up s = (Normal (map xbox_normalized titles), s).
Proof.
  intros titles up s Hall. induction Hall as [| title rest Htitle _ IH].
  - reflexivity.
  - simpl. unfold bind. rewrite (gameInfo_run title up s Htitle), IH.
    reflexivity.
Qed.

(** After a search that yields an identifier and a successful title-history
    call, [fetchXboxGames] answers 200 with [{games, total}]: every title, in
    order, as [{appid: titleId, name, logo: displayImage}], and their number.
    A [titles] member that is absent (or otherwise falsy) counts as the empty
    list. *)
Theorem fetchXboxGames_normalizes :
  forall (up : Upstream) (key : string) (req : Request)
         (reply1 reply2 : HttpReply) (xuidData data : json)
         (people person xuid : value),
    http up 0 (xbox_search_url (to_string (field "username" (query req))))
         [("X-Authorization", key)] = Resolved reply1 ->
    ok reply1 = true ->
    reply_body reply1 = Some xuidData ->
    get (Some xuidData) "people" = inr people ->
    first people = inr person ->
    get person "xuid" = inr xuid ->
    trim (to_string xuid) <> "" ->
    http up 1 (xbox_history_url (trim (to_string xuid)))
         [("X-Authorization", key); ("Accept-Language", "en-US")]
      = Resolved reply2 ->
    ok reply2 = true ->
    reply_body reply2 = Some data ->
    data <> JNull ->
    prop data "titles" = Some (JArr (titles_of data))
    \/ truthy (prop data "titles") = false ->
    Forall (fun title => title <> JNull) (titles_of data) ->
    handle (fetchXboxGames key req) up =
      (Normal tt,
       mkState
         [Fetch (xbox_search_url (to_string (field "username" (query req))))
                [("X-Authorization", key)];
          Fetch (xbox_history_url (trim (to_string xuid)))
                [("X-Authorization", key); ("Accept-Language", "en-US")]]
         []
         (Some (mkResponse 200
            (Json (Some (JObj
               [("games", JArr (map xbox_normalized (titles_of data)));
                ("total",
                 JNum (Z.of_nat (List.length (titles_of data))))])))))).
Proof.
  intros up key req reply1 reply2 xuidData data people person xuid
         Hhttp1 Hok1 Hbody1 Hpeople Hperson Hxuid Hid Hhttp2 Hok2 Hbody2
         Hdata Htitles Hall.
  apply String.eqb_neq in Hid.
  pose proof (get_prop data "titles" Hdata) as Hget.
  unfold fetchXboxGames.
  run_js. rewrite Hid. run_js.
  destruct Htitles as [Hlist | Hfalsy].
  - rewrite Hlist. unfold falsy_or. cbn.
    rewrite map_items_gameInfo by exact Hall. reflexivity.
  - unfold falsy_or. rewrite Hfalsy. cbn.
    assert (Hnone : titles_of data = []).
    { unfold titles_of.
      destruct (prop data "titles") as [[| | | | items |] |];
        try reflexivity. discriminate Hfalsy. }
    rewrite Hnone. reflexivity.
Qed.

(** [fetchXboxGames] answers 404 exactly on an identifier that prints as
    white space only, and then makes no second call.  A first person without
    [xuid] is no such case: [String(undefined)] is the text [undefined], and
    the second call asks for the title history of [undefined]. *)
Theorem fetchXboxGames_blank_xuid :
  forall (up : Upstream) (key : string) (req : Request)
         (reply : HttpReply) (xuidData : json) (people person xuid : value),
    http up 0 (xbox_search_url (to_string (field "username" (query req))))
         [("X-Authorization", key)] = Resolved reply ->
    ok reply = true ->
    reply_body reply = Some xuidData ->
    get (Some xuidData) "people" = inr people ->
    first people = inr person ->
    get person "xuid" = inr xuid ->
    (trim (to_string xuid) = "" ->
     handle (fetchXboxGames key req) up =
       (Return,
        mkState
          [Fetch (xbox_search_url (to_string (field "username" (query req))))
                 [("X-Authorization", key)]]
          []
          (Some (mkResponse 404 (Text "Xbox user not found")))))
    /\ (xuid = undefined ->
        exists rest,
          calls (snd (handle (fetchXboxGames key req) up)) =
            Fetch (xbox_search_url (to_string (field "username" (query req))))
                  [("X-Authorization", key)]
            :: Fetch "https://xbl.io/api/v2/player/titleHistory/undefined"
                     [("X-Authorization", key); ("Accept-Language", "en-US")]
            :: rest).
Proof.
  intros up key req reply xuidData people person xuid
         Hhttp Hok Hbody Hpeople Hperson Hxuid.
  split.
  - intros Hblank. apply String.eqb_eq in Hblank.
    unfold fetchXboxGames.
    run_js. rewrite Hblank. reflexivity.
  - intros ->.
    unfold fetchXboxGames.
    run_js.
    vm_compute (trim (to_string undefined)).
    explore_all; settle_maps; eexists; reflexivity.
Qed.

(** ** fetchPSGames: a page request that fails *)

Lemma while_fails_midway :
  forall pages up authorization accountId offset psGames s fuel,
    answered up authorization accountId (List.length (calls s)) offset pages ->
    all_continue pages ->
    Forall well_formed_page pages ->
    (forall offset',
        psn up (List.length (calls s) + List.length pages)
            (GetUserPlayedGames authorization accountId 100 offset')
        = Rejected) ->
    (List.length pages < fuel)%nat ->
    exists s',
      while_hasNextPage fuel authorization accountId offset psGames up s
        = (Throw NetworkError, s')
      /\ sent s' = sent s
      /\ logged s' = logged s
      /\ List.length (calls s')
         = (List.length (calls s) + List.length pages + 1)%nat.
Proof.
  induction pages as [| page rest IH];
    intros up authorization accountId offset psGames s fuel
           Hans Hcont Hwf Hrej Hfuel.
  - destruct fuel as [| fuel]; [simpl in Hfuel; lia |].
    rewrite while_unfold. unfold bind at 1, psn_call.
    simpl List.length in Hrej. rewrite Nat.add_0_r in Hrej. rewrite Hrej.
    eexists. split; [reflexivity |]. simpl.
    rewrite length_app. simpl. repeat split. lia.
  - destruct fuel as [| fuel]; [simpl in Hfuel; lia |].
    destruct Hans as [Hpsn Hrest].
    inversion Hcont as [| ? ? Htruthy Hcont']; subst.
    inversion Hwf as [| ? ? (titles & Htitles & Hall) Hwf']; subst.
    destruct page as [| b | n | t | items | fs]; try discriminate Htitles.
    simpl in Htitles, Htruthy.
    rewrite while_unfold. unfold bind at 1, psn_call. rewrite Hpsn.
    unfold bind, lift. rewrite !get_object, Htitles. cbn.
    unfold ret at 1. rewrite each_title_run by exact Hall.
    rewrite Htruthy, (truthy_not_zero _ Htruthy). cbn [negb orb].
    unfold cursor_after in Hrest. simpl prop in Hrest.
    destruct (IH up authorization accountId
                 (nullish_or (field "nextOffset" fs) (Some (JNum 0)))
                 (psGames ++ map normalized (filter accepted titles))%list
                 (mkState
                    (calls s ++
                     [Psn (GetUserPlayedGames authorization accountId 100
                                              offset)])
                    (logged s) (sent s))
                 fuel)
      as (s' & Hrun & Hsent & Hlogged & Hcalls).
    + simpl calls. rewrite length_app, Nat.add_1_r. exact Hrest.
    + exact Hcont'.
    + exact Hwf'.
    + intros offset'. simpl calls. rewrite length_app. simpl List.length.
      replace (List.length (calls s) + 1 + List.length rest)%nat
        with (List.length (calls s) + S (List.length rest))%nat by lia.
      apply Hrej.
    + simpl in Hfuel. lia.
    + exists s'. split; [exact Hrun |].
      simpl in Hsent, Hlogged, Hcalls.
      rewrite length_app in Hcalls. simpl in Hcalls.
      repeat split; try assumption. simpl. lia.
Qed.

(** No partial results: when the upstream has served any number of pages
    that each announce a next page and then rejects the next page request,
    [fetchPSGames] answers the generic 500 with a text body; the titles it
    had collected are not sent. *)
Theorem fetchPSGames_no_partial_results :
  forall (up : Upstream) (key : string) (req : Request) (username : json)
         (accessCode authorization accountId : value) (search : json)
         (pages : list json) (fuel : nat),
    field "username" (query req) = Some username ->
    truthy (Some username) = true ->
    psn up 0 (ExchangeNpssoForAccessCode key) = Resolved accessCode ->
    psn up 1 (ExchangeAccessCodeForAuthTokens accessCode)
      = Resolved authorization ->
    psn up 2 (MakeUniversalSearch authorization (Some username)
                                  "SocialAllAccounts")
      = Resolved (Some search) ->
    first_account search = Some accountId ->
    answered up authorization accountId 3 (Some (JNum 0)) pages ->
    all_continue pages ->
    Forall well_formed_page pages ->
    (forall offset,
        psn up (3 + List.length pages)
            (GetUserPlayedGames authorization accountId 100 offset)
        = Rejected) ->
    (List.length pages < fuel)%nat ->
    fst (handle (fetchPSGames fuel key req) up) = Normal tt
    /\ sent (snd (handle (fetchPSGames fuel key req) up))
       = Some (mkResponse 500 (Text "Failed to fetch PS games"))
    /\ logged (snd (handle (fetchPSGames fuel key req) up))
       = [("Error fetching PS games:", NetworkError)]
    /\ List.length (calls (snd (handle (fetchPSGames fuel key req) up)))
       = (3 + List.length pages + 1)%nat.
Proof.
  intros up key req username accessCode authorization accountId search
         pages fuel Huser Htruthy Hcode Hauth Hsearch Haccount Hans
         Hcont Hwf Hrej Hfuel.
  destruct (first_account_reads _ _ Haccount)
    as (domainResponses & domainResponse & results & result & socialMetadata
        & Hdr & Hd & Hres & Hr & Hsm & Hacc).
  unfold fetchPSGames.
  rewrite Huser, Htruthy.
  run_js.
  match goal with
  | |- context [while_hasNextPage fuel ?a ?i ?o ?g up ?s0] =>
      destruct (while_fails_midway pages up a i o g s0 fuel)
        as (s' & Hrun & Hsent & Hlogged & Hcalls); try assumption
  end.
  rewrite Hrun. cbn. rewrite Hlogged, Hcalls. cbn.
  repeat split.
Qed.

(** ** What the loop of fetchPSGames leaves alone *)

Lemma each_title_frame :
  forall titles psGames up s c s',
    each_title psGames titles up s = (c, s') ->
    s' = s
    /\ (c = Throw TypeError
        \/ exists kept,
             c = Normal (psGames ++ map normalized kept)%list
             /\ Forall (fun t => accepted t = true) kept).
Proof.
  induction titles as [| title rest IH]; intros psGames up s c s' Hrun.
  - inversion Hrun; subst. split; [reflexivity |]. right.
    exists []. simpl. rewrite app_nil_r. split; [reflexivity | constructor].
  - simpl in Hrun. unfold bind in Hrun.
    destruct title;
      try (inversion Hrun; subst; split; [reflexivity | left; reflexivity]);
      (rewrite keep_title_run in Hrun by discriminate;
       match type of Hrun with
       | context [accepted ?t] =>
           destruct (accepted t) eqn:Hacc;
           apply IH in Hrun;
           destruct Hrun as [-> [-> | (kept & -> & Hkept)]];
           (split; [reflexivity |]);
           try (left; reflexivity);
           right;
           [exists (t :: kept); simpl; rewrite <- app_assoc;
            split; [reflexivity | constructor; assumption]
           | exists kept; split; [reflexivity | assumption]]
       end).
Qed.

(** The loop writes nothing on [res], logs nothing, makes at most one call
    per unit of fuel and never returns from the handler; the list it yields
    is the list it was entered with, followed by normalized titles of an
    accepted category. *)
Lemma while_frame :
  forall fuel up authorization accountId offset psGames s c s',
    while_hasNextPage fuel authorization accountId offset psGames up s
      = (c, s') ->
    sent s' = sent s
    /\ logged s' = logged s
    /\ (List.length (calls s') <= List.length (calls s) + fuel)%nat
    /\ c <> Return
    /\ forall psGames',
        c = Normal psGames' ->
        exists kept,
          psGames' = (psGames ++ map normalized kept)%list
          /\ Forall (fun t => accepted t = true) kept.
Proof.
  induction fuel as [| fuel IH];
    intros up authorization accountId offset psGames s c s' Hrun.
  - inversion Hrun; subst. simpl.
    repeat split; try lia; try discriminate.
  - rewrite while_unfold in Hrun. unfold bind at 1, psn_call in Hrun.
    set (s1 := mkState
                 (calls s ++
                  [Psn (GetUserPlayedGames authorization accountId 100
                                           offset)])
                 (logged s) (sent s)) in Hrun.
    assert (Hs1 : List.length (calls s1) = S (List.length (calls s))).
    { unfold s1. simpl. rewrite length_app, Nat.add_1_r. reflexivity. }
    assert (Hstop : forall e,
               (Throw e : completion (list json), s1) = (c, s') ->
               sent s' = sent s
               /\ logged s' = logged s
               /\ (List.length (calls s') <= List.length (calls s) + S fuel)%nat
               /\ c <> Return
               /\ forall psGames',
                   c = Normal psGames' ->
                   exists kept,
                     psGames' = (psGames ++ map normalized kept)%list
                     /\ Forall (fun t => accepted t = true) kept).
    { intros e H. inversion H; subst c s'. rewrite Hs1. simpl.
      repeat split; try lia; try discriminate. }
    destruct (psn up (List.length (calls s))
                  (GetUserPlayedGames authorization accountId 100 offset))
      as [| playedGames]; [apply (Hstop _ Hrun) |].
    unfold bind at 1 in Hrun.
    destruct (get playedGames "titles") as [e | titles];
      [apply (Hstop _ Hrun) |].
    cbn in Hrun. unfold bind at 1 in Hrun.
    destruct (forEach_title titles psGames up s1) as [c1 s2] eqn:Heach.
    assert (Heach' :
      s2 = s1
      /\ (c1 = Throw TypeError
          \/ exists kept,
               c1 = Normal (psGames ++ map normalized kept)%list
               /\ Forall (fun t => accepted t = true) kept)).
    { destruct titles as [[| b | n | t | items | fs] |];
        try (inversion Heach; subst; split; [reflexivity | left; reflexivity]).
      apply each_title_frame in Heach. exact Heach. }
    destruct Heach' as [-> [-> | (kept & -> & Hkept)]];
      [apply (Hstop _ Hrun) |].
    unfold bind at 1 in Hrun.
    destruct (get playedGames "nextOffset") as [e | nextOffset];
      [apply (Hstop _ Hrun) |].
    cbn in Hrun.
    destruct (negb (negb (truthy nextOffset) || is_number nextOffset 0)).
    + apply IH in Hrun.
      destruct Hrun as (Hsent & Hlogged & Hcalls & Hret & Hlist).
      rewrite Hs1 in Hcalls.
      repeat split; try assumption; try lia.
      intros psGames' Hc.
      destruct (Hlist psGames' Hc) as (kept' & -> & Hkept').
      exists (kept ++ kept')%list.
      rewrite map_app, app_assoc.
      split; [reflexivity | apply Forall_app; split; assumption].
    + inversion Hrun; subst c s'. rewrite Hs1. simpl.
      repeat split; try lia; try discriminate.
      intros psGames' Hc. inversion Hc; subst.
      exists kept. split; [reflexivity | assumption].
Qed.

(** ** Every request is answered *)

Ltac settle_loop :=
  match goal with
  | Hrun : while_hasNextPage _ _ _ _ _ _ _ = _ |- _ =>
      let Hsent := fresh "Hsent" in
      let Hlogged := fresh "Hlogged" in
      let Hcalls := fresh "Hcalls" in
      let Hret := fresh "Hret" in
      let Hlist := fresh "Hlist" in
      apply while_frame in Hrun;
      destruct Hrun as (Hsent & Hlogged & Hcalls & Hret & Hlist);
      simpl in Hsent, Hlogged, Hcalls
  end.

(** No exception leaves a handler and no path through it forgets to write
    on [res]: [fetchSuggestions], [fetchSteamGames] and [fetchXboxGames]
    always end, normally or by [return], with a response written.  So does
    [fetchPSGames], unless its loop is still running, in which case nothing
    has been written yet. *)
Theorem handlers_always_respond :
  forall (up : Upstream) (key : string) (req : Request) (fuel : nat),
    responded (handle (fetchSuggestions key req) up)
    /\ responded (handle (fetchSteamGames key req) up)
    /\ responded (handle (fetchXboxGames key req) up)
    /\ (responded (handle (fetchPSGames fuel key req) up)
        \/ (fst (handle (fetchPSGames fuel key req) up) = Diverge
            /\ sent (snd (handle (fetchPSGames fuel key req) up)) = None)).
Proof.
  intros up key req fuel. unfold responded.
  split; [| split; [| split]].
  - unfold fetchSuggestions. unfold_js. explore_all.
    all: split; [auto | eexists; reflexivity].
  - unfold fetchSteamGames. unfold_js. explore_all.
    all: settle_maps.
    all: split; [auto | eexists; reflexivity].
  - unfold fetchXboxGames. unfold_js. explore_all.
    all: settle_maps.
    all: split; [auto | eexists; reflexivity].
  - unfold fetchPSGames. unfold_js. explore_all.
    all: try settle_loop.
    all: try (left; split; [auto | eexists; reflexivity]).
    + contradiction.
    + right. split; [reflexivity | exact Hsent].
Qed.

(** ** What the responses look like *)

Ltac fixed_leaf :=
  let Hresp := fresh "Hresp" in
  intros Hresp; inversion Hresp; subst; unfold json_or_fixed_text; simpl;
  first
    [ left; split; [reflexivity | eexists; reflexivity]
    | right; split;
      [ first [discriminate | eapply not_ok_200; eassumption]
      | eexists; split; [reflexivity | simpl; auto 10] ] ].

(** A handler sends a JSON body with status 200 and with no other status.
    Every other response, the passed-through ones included, carries one of
    the texts written in the handler: whatever the upstream sent in a failed
    reply, none of it reaches the caller. *)
Theorem responses_are_json_or_fixed_text :
  forall (up : Upstream) (key : string) (req : Request) (fuel : nat),
    (forall r,
        sent (snd (handle (fetchSuggestions key req) up)) = Some r ->
        json_or_fixed_text
          ["Missing search query"; "Failed to fetch game suggestions"] r)
    /\ (forall r,
          sent (snd (handle (fetchSteamGames key req) up)) = Some r ->
          json_or_fixed_text
            ["Missing Steam vanity URL"; "Failed to fetch Steam user";
             "Steam user not found"; "Failed to fetch Steam games"] r)
    /\ (forall r,
          sent (snd (handle (fetchXboxGames key req) up)) = Some r ->
          json_or_fixed_text
            ["Failed to fetch Xbox XUID"; "Xbox user not found";
             "Failed to fetch Xbox games, resp not ok";
             "Failed to fetch Xbox games"] r)
    /\ (forall r,
          sent (snd (handle (fetchPSGames fuel key req) up)) = Some r ->
          json_or_fixed_text
            ["Missing PSN username"; "Failed to fetch PS games"] r).
Proof.
  intros up key req fuel.
  split; [| split; [| split]]; intros r.
  - unfold fetchSuggestions. unfold_js. explore_all.
    all: fixed_leaf.
  - unfold fetchSteamGames. unfold_js. explore_all.
    all: settle_maps.
    all: fixed_leaf.
  - unfold fetchXboxGames. unfold_js. explore_all.
    all: settle_maps.
    all: fixed_leaf.
  - unfold fetchPSGames. unfold_js. explore_all.
    all: try settle_loop.
    all: try fixed_leaf.
    all: intros H; rewrite Hsent in H; discriminate H.
Qed.

(** [fetchPSGames] has no pass-through: it answers 200, 400 or 500 and
    nothing else, whatever the psn-api calls do. *)
Theorem fetchPSGames_statuses :
  forall (up : Upstream) (key : string) (req : Request) (fuel : nat)
         (r : Response),
    sent (snd (handle (fetchPSGames fuel key req) up)) = Some r ->
    status r = 200 \/ status r = 400 \/ status r = 500.
Proof.
  intros up key req fuel r.
  unfold fetchPSGames. unfold_js. explore_all.
  all: try settle_loop.
  all: try (intros H; inversion H; subst; simpl; auto; fail).
  all: intros H; rewrite Hsent in H; discriminate H.
Qed.

(** The handlers never call out more often than their chain is long: one
    call for [fetchSuggestions], two for [fetchSteamGames] and
    [fetchXboxGames], three plus one per loop iteration for
    [fetchPSGames]. *)
Theorem outbound_calls_are_bounded :
  forall (up : Upstream) (key : string) (req : Request) (fuel : nat),
    (List.length (calls (snd (handle (fetchSuggestions key req) up)))
     <= 1)%nat
    /\ (List.length (calls (snd (handle (fetchSteamGames key req) up)))
        <= 2)%nat
    /\ (List.length (calls (snd (handle (fetchXboxGames key req) up)))
        <= 2)%nat
    /\ (List.length (calls (snd (handle (fetchPSGames fuel key req) up)))
        <= 3 + fuel)%nat.
Proof.
  intros up key req fuel.
  split; [| split; [| split]].
  - unfold fetchSuggestions. unfold_js. explore_all.
    all: lia.
  - unfold fetchSteamGames. unfold_js. explore_all.
    all: settle_maps.
    all: simpl; lia.
  - unfold fetchXboxGames. unfold_js. explore_all.
    all: settle_maps.
    all: simpl; lia.
  - unfold fetchPSGames. unfold_js. explore_all.
    all: try settle_loop.
    all: simpl; lia.
Qed.

(** [logger.error] is called at most once per request, with the message of
    the handler, and only by the [catch] that then answers the generic 500:
    validation failures, passed-through statuses, 404 and success log
    nothing. *)
Theorem errors_are_logged_once :
  forall (up : Upstream) (key : string) (req : Request) (fuel : nat),
    logs_only_for "API fetch failed:" "Failed to fetch game suggestions"
                  (handle (fetchSuggestions key req) up)
    /\ logs_only_for "API fetch failed:" "Failed to fetch Steam games"
                     (handle (fetchSteamGames key req) up)
    /\ logs_only_for "Error fetching Xbox games:" "Failed to fetch Xbox games"
                     (handle (fetchXboxGames key req) up)
    /\ logs_only_for "Error fetching PS games:" "Failed to fetch PS games"
                     (handle (fetchPSGames fuel key req) up).
Proof.
  intros up key req fuel. unfold logs_only_for.
  split; [| split; [| split]].
  - unfold fetchSuggestions. unfold_js. explore_all.
    all: first [left; reflexivity | right; eexists; repeat split].
  - unfold fetchSteamGames. unfold_js. explore_all.
    all: settle_maps.
    all: first [left; reflexivity | right; eexists; repeat split].
  - unfold fetchXboxGames. unfold_js. explore_all.
    all: settle_maps.
    all: first [left; reflexivity | right; eexists; repeat split].
  - unfold fetchPSGames. unfold_js. explore_all.
    all: try settle_loop.
    all: try rewrite Hlogged.
    all: first [left; reflexivity | right; eexists; repeat split].
Qed.

(** ** The games of a 200 response, whatever the upstream sends *)

Lemma accepted_category :
  forall title,
    accepted title = true ->
    prop title "category" = Some (JStr "ps4_game")
    \/ prop title "category" = Some (JStr "ps5_native_game").
Proof.
  intros title H. unfold accepted in H. apply orb_true_iff in H.
  destruct (prop title "category") as [[| b | n | s | items | fs] |];
    simpl in H; destruct H as [H | H]; try discriminate H;
    apply String.eqb_eq in H; subst; auto.
Qed.

Lemma fetchPSGames_200_body :
  forall (up : Upstream) (key : string) (req : Request) (fuel : nat)
         (r : Response),
    sent (snd (handle (fetchPSGames fuel key req) up)) = Some r ->
    status r = 200 ->
    exists games,
      body r =
        Json (Some (JObj [("total", JNum (Z.of_nat (List.length games)));
                          ("games", JArr games)]))
      /\ Forall (fun g =>
                   exists title,
                     (prop title "category" = Some (JStr "ps4_game")
                      \/ prop title "category" = Some (JStr "ps5_native_game"))
                     /\ g = normalized title) games.
Proof.
  intros up key req fuel r.
  unfold fetchPSGames. unfold_js. explore_all.
  all: try settle_loop.
  all: try wrong_status.
  2-3: intros Hresp; rewrite Hsent in Hresp; discriminate Hresp.
  intros Hresp _. inversion Hresp; subst.
  destruct (Hlist _ eq_refl) as (kept & -> & Hkept).
  simpl app. eexists. split; [reflexivity |].
  apply Forall_map. eapply Forall_impl; [| exact Hkept].
  intros title Hacc. exists title.
  split; [apply accepted_category, Hacc | reflexivity].
Qed.

Lemma fetchXboxGames_200_body :
  forall (up : Upstream) (key : string) (req : Request) (r : Response),
    sent (snd (handle (fetchXboxGames key req) up)) = Some r ->
    status r = 200 ->
    exists titles,
      body r =
        Json (Some (JObj [("games", JArr (map xbox_normalized titles));
                          ("total", JNum (Z.of_nat (List.length titles)))])).
Proof.
  intros up key req r.
  unfold fetchXboxGames. unfold_js. explore_all.
  all: settle_maps.
  all: try wrong_status.
  intros Hresp _. inversion Hresp; subst.
  match goal with
  | Hval : falsy_or _ _ = Some (JArr ?titles),
    Hlen : get_length (falsy_or _ _) = inr _ |- _ =>
      rewrite Hval in Hlen; inversion Hlen; subst; exists titles
  end.
  reflexivity.
Qed.

(** Whatever the psn-api calls return, a 200 response of [fetchPSGames]
    holds the kept titles of the pages the upstream returned to the page
    requests of this very run, which are all its calls after the first
    three: [games] is, page after page and in the order of each page, the
    normalization of exactly the titles whose category is [ps4_game] or
    [ps5_native_game], and [total] is its length. *)
Theorem fetchPSGames_sends_only_accepted_titles :
  forall (up : Upstream) (key : string) (req : Request) (fuel : nat)
         (r : Response),
    sent (snd (handle (fetchPSGames fuel key req) up)) = Some r ->
    status r = 200 ->
    exists prefix requests pages,
      calls (snd (handle (fetchPSGames fuel key req) up))
        = (prefix ++ requests)%list
      /\ List.length prefix = 3%nat
      /\ served up 3 requests pages
      /\ body r =
         Json (Some (JObj
           [("total", JNum (Z.of_nat (List.length (kept_titles pages))));
            ("games", JArr (kept_titles pages))]))
      /\ forall g,
          In g (kept_titles pages) <->
          exists page title,
            In page pages /\ In title (titles_of page)
            /\ (prop title "category" = Some (JStr "ps4_game")
                \/ prop title "category" = Some (JStr "ps5_native_game"))
            /\ g = normalized title.
Proof.
  intros up key req fuel r Hsent Hstatus.
  destruct (fetchPSGames_200_pages up key req fuel r Hsent Hstatus)
    as (prefix & requests & pages & Hcalls & Hprefix & Hserved & Hbody).
  exists prefix, requests, pages.
  repeat (split; [assumption |]).
  apply in_kept_titles.
Qed.

(** Whatever the upstream returns, a 200 response of [fetchXboxGames]
    is built from the document the upstream returned to the second call of
    this very run: [games] holds one normalized game per title of that
    document, in order, and [total] is their number. *)
Theorem fetchXboxGames_total_counts_games :
  forall (up : Upstream) (key : string) (req : Request) (r : Response),
    sent (snd (handle (fetchXboxGames key req) up)) = Some r ->
    status r = 200 ->
    exists first_call url headers reply data,
      calls (snd (handle (fetchXboxGames key req) up))
        = [first_call; Fetch url headers]
      /\ http up 1 url headers = Resolved reply
      /\ reply_body reply = Some data
      /\ body r =
         Json (Some (JObj
           [("games", JArr (map xbox_normalized (titles_of data)));
            ("total", JNum (Z.of_nat (List.length (titles_of data))))])).
Proof.
  intros up key req r Hsent Hstatus.
  exact (fetchXboxGames_200_reply up key req r Hsent Hstatus).
Qed.

Lemma keys_of_defined_props :
  forall props k,
    In k (map fst (defined_props props)) -> In k (map fst props).
Proof.
  induction props as [| [k' [v |]] rest IH]; intros k Hin; simpl in *.
  - exact Hin.
  - destruct Hin as [-> | Hin]; [left; reflexivity | right; apply IH, Hin].
  - right. apply IH, Hin.
Qed.

(** No other upstream field gets through: whatever the upstream sends,
    every game of a 200 response is an object whose members are among
    [appid], [name] and [logo]; for [fetchSteamGames] among [appid] and
    [name]. *)
Theorem games_carry_only_normalized_fields :
  forall (up : Upstream) (key : string) (req : Request) (fuel : nat),
    (forall r,
        sent (snd (handle (fetchSteamGames key req) up)) = Some r ->
        status r = 200 ->
        Forall (fun g => exists fs,
                    g = JObj fs /\ incl (map fst fs) ["appid"; "name"])
               (response_games r))
    /\ (forall r,
          sent (snd (handle (fetchPSGames fuel key req) up)) = Some r ->
          status r = 200 ->
          Forall (fun g => exists fs,
                      g = JObj fs
                      /\ incl (map fst fs) ["appid"; "name"; "logo"])
                 (response_games r))
    /\ (forall r,
          sent (snd (handle (fetchXboxGames key req) up)) = Some r ->
          status r = 200 ->
          Forall (fun g => exists fs,
                      g = JObj fs
                      /\ incl (map fst fs) ["appid"; "name"; "logo"])
                 (response_games r)).
Proof.
  intros up key req fuel.
  split; [| split]; intros r Hsent Hstatus.
  - revert Hsent Hstatus.
    unfold fetchSteamGames. unfold_js. explore_all.
    all: settle_maps.
    all: try wrong_status.
    intros Hresp _. inversion Hresp; subst.
    unfold response_games. simpl.
    apply Forall_map. apply Forall_forall. intros game _.
    eexists. split; [reflexivity |].
    intros k Hin. apply keys_of_defined_props in Hin. exact Hin.
  - destruct (fetchPSGames_200_body
                up key req fuel r Hsent Hstatus) as (games & Hbody & Hall).
    unfold response_games. rewrite Hbody. simpl.
    eapply Forall_impl; [| exact Hall].
    intros g (title & _ & ->).
    eexists. split; [reflexivity |].
    intros k Hin. apply keys_of_defined_props in Hin. exact Hin.
  - destruct (fetchXboxGames_200_body up key req r Hsent Hstatus)
      as (titles & Hbody).
    unfold response_games. rewrite Hbody. simpl.
    apply Forall_map. apply Forall_forall. intros title _.
    eexists. split; [reflexivity |].
    intros k Hin. apply keys_of_defined_props in Hin. exact Hin.
Qed.

(** ** The two files *)

(** functions/src/index.ts and part_000 differ in the success body of
    [fetchSteamGames] only.  Their [fetchSuggestions] are the same handler:
    same call, same log, same response on every request and upstream.
    Whenever [fetchSteamGames] of index.ts answers anything but 200, the one
    of part_000 ends in the very same state; whenever it answers 200, the
    other has made the same calls and answers 200 or, when the [games] list
    cannot be mapped, its generic 500. *)
Theorem index_ts_differs_on_steam_success_only :
  forall (up : Upstream) (key : string) (req : Request),
    handle (IndexTs.fetchSuggestions key req) up
    = handle (fetchSuggestions key req) up
    /\ forall r,
        sent (snd (handle (IndexTs.fetchSteamGames key req) up)) = Some r ->
        (status r <> 200 ->
         handle (fetchSteamGames key req) up
         = handle (IndexTs.fetchSteamGames key req) up)
        /\ (status r = 200 ->
            calls (snd (handle (fetchSteamGames key req) up))
            = calls (snd (handle (IndexTs.fetchSteamGames key req) up))
            /\ exists r',
                 sent (snd (handle (fetchSteamGames key req) up)) = Some r'
                 /\ (status r' = 200
                     \/ r' = mkResponse 500
                                (Text "Failed to fetch Steam games"))).
Proof.
  intros up key req.
  split; [reflexivity |].
  intros r.
  unfold fetchSteamGames, IndexTs.fetchSteamGames. unfold_js. explore_all.
  all: settle_maps.
  all: intros Hresp; inversion Hresp; subst; simpl.
  all: split; [intros Hne | intros Heq];
    try reflexivity; try contradiction; try discriminate Heq;
    try (exfalso; eapply not_ok_200; eassumption).
  all: split; [reflexivity |]; eexists; split; [reflexivity |]; auto.
Qed.

(** ** fetchSuggestions: what is forwarded *)

(** [fetchSuggestions] forwards the [results] member of whatever JSON
    document the search returns, unchecked: a document without [results]
    (an object without the member, a list, a number) is answered with 200
    and no body, not with an error. *)
Theorem fetchSuggestions_forwards_results_member :
  forall (up : Upstream) (key : string) (req : Request) (reply : HttpReply)
         (data : json),
    truthy (field "query" (query req)) = true ->
    http up 0 (rawg_search_url key (to_string (field "query" (query req)))) []
      = Resolved reply ->
    ok reply = true ->
    reply_body reply = Some data ->
    data <> JNull ->
    handle (fetchSuggestions key req) up =
      (Normal tt,
       mkState
         [Fetch (rawg_search_url key
                   (to_string (field "query" (query req)))) []]
         []
         (Some (mkResponse 200 (Json (prop data "results"))))).
Proof.
  intros up key req reply data Htruthy Hhttp Hok Hbody Hdata.
  pose proof (get_prop data "results" Hdata) as Hget.
  unfold fetchSuggestions. rewrite Htruthy.
  run_js. reflexivity.
Qed.

(** ** The further properties at concrete requests *)

Lemma fetchSuggestions_passes_status_witness :
  sent (snd (handle (fetchSuggestions "KEY" full_request) unavailable))
  = Some (mkResponse 503 (Text "Failed to fetch game suggestions")).
Proof.
  rewrite (fetchSuggestions_passes_status
             unavailable "KEY" full_request _ eq_refl eq_refl eq_refl).
  reflexivity.
Defined.

Lemma fetchSteamGames_passes_status_witness :
  sent (snd (handle (fetchSteamGames "KEY" full_request) unavailable))
  = Some (mkResponse 503 (Text "Failed to fetch Steam user"))
  /\ sent (snd (handle (fetchSteamGames "KEY" full_request)
                       steam_games_unavailable))
     = Some (mkResponse 429 (Text "Failed to fetch Steam games")).
Proof.
  split.
  - destruct (fetchSteamGames_passes_status
                unavailable "KEY" full_request eq_refl) as [Hfirst _].
    rewrite (Hfirst _ eq_refl eq_refl). reflexivity.
  - destruct (fetchSteamGames_passes_status
                steam_games_unavailable "KEY" full_request eq_refl)
      as [_ Hsecond].
    rewrite (Hsecond _ _ _ _ _ _ eq_refl eq_refl eq_refl eq_refl eq_refl
                     eq_refl eq_refl eq_refl eq_refl).
    reflexivity.
Defined.

Lemma fetchXboxGames_passes_status_witness :
  sent (snd (handle (fetchXboxGames "KEY" full_request) unavailable))
  = Some (mkResponse 503 (Text "Failed to fetch Xbox XUID"))
  /\ handle (fetchXboxGames "KEY" full_request) xbox_history_unavailable
     = (Return,
        mkState
          [Fetch "https://xbl.io/api/v2/search/player"
                 [("X-Authorization", "KEY")];
           Fetch "https://xbl.io/api/v2/player/titleHistory/2533274792073233"
                 [("X-Authorization", "KEY"); ("Accept-Language", "en-US")]]
          []
          (Some (mkResponse 500
                   (Text "Failed to fetch Xbox games, resp not ok")))).
Proof.
  assert (Hid : trim (to_string (Some (JStr " 2533274792073233 "))) <> "")
    by discriminate.
  split.
  - destruct (fetchXboxGames_passes_status unavailable "KEY" full_request)
      as [Hfirst _].
    rewrite (Hfirst _ eq_refl eq_refl). reflexivity.
  - destruct (fetchXboxGames_passes_status
                xbox_history_unavailable "KEY" full_request) as [_ Hsecond].
    rewrite (Hsecond _ _ _ _ _ _ eq_refl eq_refl eq_refl eq_refl eq_refl
                     eq_refl Hid eq_refl eq_refl).
    reflexivity.
Defined.

Lemma rejected_first_call_is_500_witness :
  logged (snd (handle (fetchPSGames 5 "NPSSO" full_request) offline))
  = [("Error fetching PS games:", NetworkError)]
  /\ sent (snd (handle (fetchXboxGames "KEY" full_request) offline))
     = Some (mkResponse 500 (Text "Failed to fetch Xbox games")).
Proof.
  assert (Hhttp : forall url headers, http offline 0 url headers = Rejected)
    by reflexivity.
  assert (Hpsn : forall c, psn offline 0 c = Rejected) by reflexivity.
  split.
  - destruct (rejected_first_call_is_500
                offline "NPSSO" full_request 5 Hhttp Hpsn
                eq_refl eq_refl eq_refl) as (_ & _ & Hps & _).
    rewrite Hps. reflexivity.
  - destruct (rejected_first_call_is_500
                offline "KEY" full_request 5 Hhttp Hpsn
                eq_refl eq_refl eq_refl) as (_ & _ & _ & Hxbox).
    rewrite Hxbox. reflexivity.
Defined.

Lemma unreadable_body_is_500_witness :
  logged (snd (handle (fetchSuggestions "KEY" full_request) html_page))
  = [("API fetch failed:", SyntaxError)]
  /\ sent (snd (handle (fetchSteamGames "KEY" full_request) html_page))
     = Some (mkResponse 500 (Text "Failed to fetch Steam games")).
Proof.
  assert (Hhttp : forall url headers,
             http html_page 0 url headers = Resolved (mkReply 200 None))
    by reflexivity.
  assert (Hbody : reply_body (mkReply 200 None) = None
                  \/ reply_body (mkReply 200 None) = Some JNull)
    by (left; reflexivity).
  destruct (unreadable_body_is_500
              html_page "KEY" full_request _ Hhttp eq_refl Hbody
              eq_refl eq_refl) as (Hsuggestions & Hsteam & _).
  split; [rewrite Hsuggestions | rewrite Hsteam]; reflexivity.
Defined.

Lemma fetchXboxGames_normalizes_witness :
  sent (snd (handle (fetchXboxGames "KEY" full_request) example_xbox))
  = Some (mkResponse 200
      (Json (Some (JObj
         [("games",
           JArr [JObj [("appid", JStr "1144039928"); ("name", JStr "Halo");
                       ("logo", JStr "https://image/halo.png")];
                 JObj [("appid", JStr "219630713"); ("name", JStr "Forza")]]);
          ("total", JNum 2)])))).
Proof.
  assert (Hid : trim (to_string (Some (JStr " 2533274792073233 "))) <> "")
    by discriminate.
  assert (Hdata : example_title_history <> JNull) by discriminate.
  assert (Htitles :
    prop example_title_history "titles"
    = Some (JArr (titles_of example_title_history))
    \/ truthy (prop example_title_history "titles") = false)
    by (left; reflexivity).
  assert (Hall : Forall (fun title => title <> JNull)
                        (titles_of example_title_history))
    by (repeat constructor; discriminate).
  rewrite (fetchXboxGames_normalizes
             example_xbox "KEY" full_request _ _ _ _ _ _ _
             eq_refl eq_refl eq_refl eq_refl eq_refl eq_refl Hid
             eq_refl eq_refl eq_refl Hdata Htitles Hall).
  reflexivity.
Defined.

Lemma fetchXboxGames_blank_xuid_witness :
  sent (snd (handle (fetchXboxGames "KEY" full_request) xbox_blank_xuid))
  = Some (mkResponse 404 (Text "Xbox user not found"))
  /\ exists rest,
       calls (snd (handle (fetchXboxGames "KEY" full_request) xbox_no_xuid)) =
         Fetch "https://xbl.io/api/v2/search/player"
               [("X-Authorization", "KEY")]
         :: Fetch "https://xbl.io/api/v2/player/titleHistory/undefined"
                  [("X-Authorization", "KEY"); ("Accept-Language", "en-US")]
         :: rest.
Proof.
  split.
  - destruct (fetchXboxGames_blank_xuid
                xbox_blank_xuid "KEY" full_request _ _ _ _ _
                eq_refl eq_refl eq_refl eq_refl eq_refl eq_refl)
      as [Hblank _].
    rewrite (Hblank eq_refl). reflexivity.
  - destruct (fetchXboxGames_blank_xuid
                xbox_no_xuid "KEY" full_request _ _ _ _ _
                eq_refl eq_refl eq_refl eq_refl eq_refl eq_refl)
      as [_ Hnone].
    exact (Hnone eq_refl).
Defined.

Lemma fetchPSGames_no_partial_results_witness :
  sent (snd (handle (fetchPSGames 2 "NPSSO" full_request)
                    psn_breaks_after_first_page))
  = Some (mkResponse 500 (Text "Failed to fetch PS games"))
  /\ List.length
       (calls (snd (handle (fetchPSGames 2 "NPSSO" full_request)
                           psn_breaks_after_first_page))) = 5%nat.
Proof.
  assert (Hans : answered psn_breaks_after_first_page
                   (Some (JObj [("accessToken", JStr "token")]))
                   (Some (JStr "42")) 3 (Some (JNum 0)) [example_page_1])
    by (repeat split).
  assert (Hcont : all_continue [example_page_1])
    by (repeat constructor).
  assert (Hwf : Forall well_formed_page [example_page_1]).
  { repeat constructor; eexists; (split; [reflexivity |]);
      repeat constructor; discriminate. }
  assert (Hrej : forall offset,
             psn psn_breaks_after_first_page
                 (3 + List.length [example_page_1])
                 (GetUserPlayedGames
                    (Some (JObj [("accessToken", JStr "token")]))
                    (Some (JStr "42")) 100 offset) = Rejected)
    by reflexivity.
  assert (Hfuel : (List.length [example_page_1] < 2)%nat) by (simpl; lia).
  destruct (fetchPSGames_no_partial_results
              psn_breaks_after_first_page "NPSSO" full_request _ _ _ _ _ _ 2
              eq_refl eq_refl eq_refl eq_refl eq_refl eq_refl
              Hans Hcont Hwf Hrej Hfuel)
    as (_ & Hsent & _ & Hcalls).
  split; [exact Hsent | exact Hcalls].
Defined.

Lemma fetchSuggestions_forwards_results_member_witness :
  sent (snd (handle (fetchSuggestions "KEY" full_request)
                    rawg_without_results))
  = Some (mkResponse 200 (Json undefined)).
Proof.
  assert (Hdata : JObj [("detail", JStr "ok")] <> JNull) by discriminate.
  rewrite (fetchSuggestions_forwards_results_member
             rawg_without_results "KEY" full_request _ _
             eq_refl eq_refl eq_refl eq_refl Hdata).
  reflexivity.
Defined.

Lemma responses_are_json_or_fixed_text_witness :
  exists r,
    sent (snd (handle (fetchXboxGames "KEY" full_request)
                      xbox_history_unavailable)) = Some r
    /\ status r = 500
    /\ json_or_fixed_text
         ["Failed to fetch Xbox XUID"; "Xbox user not found";
          "Failed to fetch Xbox games, resp not ok";
          "Failed to fetch Xbox games"] r.
Proof.
  eexists. split; [reflexivity |]. split; [reflexivity |].
  destruct (responses_are_json_or_fixed_text
              xbox_history_unavailable "KEY" full_request 0)
    as (_ & _ & Hxbox & _).
  apply Hxbox. reflexivity.
Defined.

Lemma fetchPSGames_statuses_witness :
  exists r,
    sent (snd (handle (fetchPSGames 2 "NPSSO" full_request) example_psn))
    = Some r
    /\ (status r = 200 \/ status r = 400 \/ status r = 500).
Proof.
  eexists. split; [vm_compute; reflexivity |].
  apply (fetchPSGames_statuses example_psn "NPSSO" full_request 2).
  vm_compute. reflexivity.
Defined.

Lemma fetchPSGames_sends_only_accepted_titles_witness :
  exists requests pages,
    served example_psn 3 requests pages
    /\ List.length pages = 2%nat
    /\ sent (snd (handle (fetchPSGames 2 "NPSSO" full_request) example_psn))
       = Some (mkResponse 200
           (Json (Some (JObj
              [("total", JNum (Z.of_nat (List.length (kept_titles pages))));
               ("games", JArr (kept_titles pages))])))).
Proof.
  destruct (fetchPSGames_sends_only_accepted_titles
              example_psn "NPSSO" full_request 2 _ eq_refl eq_refl)
    as (prefix & requests & pages & Hcalls & Hprefix & Hserved & Hbody & _).
  exists requests, pages.
  split; [exact Hserved |].
  assert (Hrequests : List.length requests = 2%nat).
  { apply (f_equal (@List.length Call)) in Hcalls.
    rewrite length_app, Hprefix in Hcalls. simpl in Hcalls. lia. }
  split.
  - clear - Hserved Hrequests.
    destruct requests as [| c1 [| c2 [| c3 rest]]]; try discriminate Hrequests.
    destruct pages as [| p1 [| p2 [| p3 more]]]; simpl in Hserved; tauto.
  - simpl in Hbody. rewrite <- Hbody. reflexivity.
Defined.

Lemma fetchXboxGames_total_counts_games_witness :
  sent (snd (handle (fetchXboxGames "KEY" full_request) example_xbox))
  = Some (mkResponse 200
      (Json (Some (JObj
         [("games",
           JArr (map xbox_normalized (titles_of example_title_history)));
          ("total",
           JNum (Z.of_nat
                   (List.length (titles_of example_title_history))))])))).
Proof.
  destruct (fetchXboxGames_total_counts_games
              example_xbox "KEY" full_request _ eq_refl eq_refl)
    as (first_call & url & headers & reply & data & _ & Hhttp & Hreply
        & Hbody).
  simpl in Hhttp. inversion Hhttp; subst reply.
  simpl in Hreply. inversion Hreply; subst data.
  rewrite <- Hbody. reflexivity.
Defined.

Lemma games_carry_only_normalized_fields_witness :
  exists r,
    sent (snd (handle (fetchSteamGames "KEY" example_steam_request)
                      example_steam)) = Some r
    /\ List.length (response_games r) = 2%nat
    /\ Forall (fun g => exists fs,
                   g = JObj fs /\ incl (map fst fs) ["appid"; "name"])
              (response_games r).
Proof.
  eexists. split; [vm_compute; reflexivity |].
  split; [reflexivity |].
  destruct (games_carry_only_normalized_fields
              example_steam "KEY" example_steam_request 0) as [Hsteam _].
  apply Hsteam; reflexivity.
Defined.

Lemma index_ts_differs_on_steam_success_only_witness :
  handle (fetchSteamGames "KEY" full_request) steam_games_unavailable
  = handle (IndexTs.fetchSteamGames "KEY" full_request)
           steam_games_unavailable
  /\ sent (snd (handle (IndexTs.fetchSteamGames "KEY" full_request)
                       steam_games_unavailable))
     = Some (mkResponse 429 (Text "Failed to fetch Steam games")).
Proof.
  assert (Hne : status (mkResponse 429 (Text "Failed to fetch Steam games"))
                <> 200) by discriminate.
  destruct (index_ts_differs_on_steam_success_only
              steam_games_unavailable "KEY" full_request) as [_ Hsteam].
  destruct (Hsteam _ eq_refl) as [Hsame _].
  split; [exact (Hsame Hne) | reflexivity].
Defined.
